(** * SitUpSwift: posture classification from pose landmarks

    Shallow embedding of [PoseLandmarker/posture_classifier.py] and the
    properties of its geometric core.

    Number model.  The Python code computes on IEEE-754 doubles.  The
    properties below are stated, as the specification states them, over the
    real numbers: a Python float is read as the real it denotes, [+], [-],
    [*], [/] as the exact field operations, [math.atan2] and [math.degrees]
    as the mathematical functions they approximate.  NaN, infinities and
    rounding are outside this model.  The main theorems therefore keep to
    comparisons, to bounds and to the values 0, 90 and 180, which the
    double operations give exactly; they do not rest on identities that
    only exact arithmetic has, such as [w - (w - x) = x] or the equality of
    two means computed in different ways. *)

From Stdlib Require Import Reals Lra Lia ZArith String.
From Stdlib Require Import DecimalString Ascii.
From stdpp Require Import base option list.

Open Scope R_scope.

(* ===================================================================== *)
(** ** Comparisons of floats, as booleans *)
(* ===================================================================== *)

Definition Rltb (x y : R) : bool := if Rlt_dec x y then true else false.
Definition Rleb (x y : R) : bool := if Rle_dec x y then true else false.
Definition Rgtb (x y : R) : bool := Rltb y x.

(* ===================================================================== *)
(** ** Thresholds (lines 9-12) *)
(* ===================================================================== *)

Definition TH1 : R := 105.
Definition TH2 : R := 110.
Definition TH3 : R := 70.
Definition TH4 : R := 80.

(* ===================================================================== *)
(** ** Geometry utilities (lines 28-41) *)
(* ===================================================================== *)

(** A 2D point: a length-2 float array, [p[0]] and [p[1]]. *)
Record point : Type := Pt { px : R; py : R }.

(** [midpoint(a, b)], line 28. *)
Definition midpoint (a b : point) : point :=
  Pt ((px a + px b) / 2) ((py a + py b) / 2).

(** [math.atan2(y, x)]: the angle in (-PI, PI] of the vector (x, y), with
    the value 0 at the origin, as C's [atan2] gives for a zero [y] that is
    the result of a subtraction of equal numbers. *)
Definition atan2 (y x : R) : R :=
  if Rltb 0 x then atan (y / x)
  else if Rltb x 0 then
    (if Rleb 0 y then atan (y / x) + PI else atan (y / x) - PI)
  else if Rltb 0 y then PI / 2
  else if Rltb y 0 then - (PI / 2)
  else 0.

(** [math.degrees(x)]. *)
Definition degrees (x : R) : R := x * (180 / PI).

(** [angle_between(p1, p2)], line 31. *)
Definition angle_between (p1 p2 : point) : R :=
  let dx := px p1 - px p2 in
  let dy := py p1 - py p2 in
  let ang := degrees (atan2 dy dx) in
  let ang := Rabs ang in
  if Rgtb ang 180 then 360 - ang else ang.

(** [angle_between] as the specification says it may be written: without
    the [if ang > 180] correction. *)
Definition angle_between_no_correction (p1 p2 : point) : R :=
  let dx := px p1 - px p2 in
  let dy := py p1 - py p2 in
  Rabs (degrees (atan2 dy dx)).

(* ===================================================================== *)
(** ** Classifier (lines 43-52) *)
(* ===================================================================== *)

Definition color : Type := (Z * Z * Z)%type.

(** [classify_posture(theta1, theta2, theta3, theta4)], line 43. *)
Definition classify_posture (theta1 theta2 theta3 theta4 : R) : string * color :=
  if Rgtb theta2 TH1 && Rgtb theta3 TH2 then
    ("L-Posture"%string, (0, 165, 255)%Z)
  else if Rleb theta1 TH3 && Rleb theta4 TH4 then
    ("T-Posture"%string, (0, 0, 255)%Z)
  else
    ("Good Posture"%string, (0, 255, 0)%Z).

(* ===================================================================== *)
(** ** Store: frame buffers and landmark arrays *)
(* ===================================================================== *)

(** A frame: a numpy [uint8] array of shape (rows, cols, 3). *)
Record image : Type := Image { rows : nat; cols : nat; pixels : list Byte.byte }.

(** One landmark of the detector's result, normalized to the frame. *)
Record landmark : Type := Landmark { lx : R; ly : R }.

(** Objects the frame processing allocates or receives by reference: frame
    buffers and float arrays of shape (n, 2), a row being a point. *)
Inductive obj : Type :=
| Img (im : image)
| Arr (a : list point).

(** Locations are indices into the store, a list of objects. *)
Abbreviation loc := nat.
Abbreviation heap := (list obj).

Inductive exn : Type := IndexError | TypeError.

Inductive outcome (A : Type) : Type :=
| Ok (a : A)
| Raise (e : exn).
Arguments Ok {A} a.
Arguments Raise {A} e.

(** Computations on the store that may raise. *)
Definition M (A : Type) : Type := heap -> outcome A * heap.

Definition ret {A} (a : A) : M A := fun s => (Ok a, s).
Definition raise {A} (e : exn) : M A := fun s => (Raise e, s).
Definition bind {A B} (m : M A) (k : A -> M B) : M B :=
  fun s => match m s with
           | (Ok a, s') => k a s'
           | (Raise e, s') => (Raise e, s')
           end.

(** [x <- m ;; k]: run [m], name its result [x], go on with [k]; an
    exception of [m] ends the run. *)
Notation "x <- m ;; k" := (bind m (fun x => k))
  (at level 62, m at next level, right associativity).

(** Allocation of a fresh object: the next free location. *)
Definition new (o : obj) : M loc := fun s => (Ok (length s), s ++ [o]).

Definition read_image (l : loc) : M image :=
  fun s => match s !! l with
           | Some (Img im) => (Ok im, s)
           | _ => (Raise TypeError, s)
           end.

Definition read_array (l : loc) : M (list point) :=
  fun s => match s !! l with
           | Some (Arr a) => (Ok a, s)
           | _ => (Raise TypeError, s)
           end.

Definition write (l : loc) (o : obj) : M unit :=
  fun s => (Ok tt, <[l := o]> s).

(** [a.copy()] on a frame and on a landmark array. *)
Definition copy_image (l : loc) : M loc := im <- read_image l ;; new (Img im).
Definition copy_array (l : loc) : M loc := a <- read_array l ;; new (Arr a).

(** [len(a)]. *)
Definition len (l : loc) : M nat := a <- read_array l ;; ret (length a).

(** [a[i]], read. *)
Definition getrow (l : loc) (i : nat) : M point :=
  a <- read_array l ;;
  match a !! i with
  | Some p => ret p
  | None => raise IndexError
  end.

(** [a[i][0]] and [a[i][1]], read. *)
Definition getitem0 (l : loc) (i : nat) : M R := p <- getrow l i ;; ret (px p).
Definition getitem1 (l : loc) (i : nat) : M R := p <- getrow l i ;; ret (py p).

(** [a[i][0] = v]. *)
Definition setitem0 (l : loc) (i : nat) (v : R) : M unit :=
  a <- read_array l ;;
  match a !! i with
  | Some p => write l (Arr (<[i := Pt v (py p)]> a))
  | None => raise IndexError
  end.

(* ===================================================================== *)
(** ** Drawing calls *)
(* ===================================================================== *)

Definition pixel : Type := (Z * Z)%type.

(** The calls of [cv2] that [process_frame] makes on its output frame; the
    font is always [FONT_HERSHEY_SIMPLEX]. *)
Inductive draw_cmd : Type :=
| Line (pt1 pt2 : pixel) (col : color) (thickness : Z)
| Circle (center : pixel) (radius : Z) (col : color) (thickness : Z)
| PutText (text : string) (org : pixel) (fontScale : R) (col : color)
          (thickness : Z).

(** [int(x)] on a float: truncation toward zero. *)
Definition py_int (x : R) : Z :=
  if Rleb 0 x then Int_part x else (- Int_part (- x))%Z.

(** [str(n)] of an integer, as an f-string prints it. *)
Definition py_str (n : Z) : string := NilZero.string_of_int (Z.to_int n).

(** What [process_frame] has computed when it starts to draw. *)
Record features : Type := Features {
  is_facing_left : bool;
  head : point; neck : point; chest : point; hip : point;
  theta1 : R; theta2 : R; theta3 : R; theta4 : R;
  label : string; label_color : color
}.

(** [for x in xs: body(x)]. *)
Fixpoint for_each {A} (xs : list A) (body : A -> M unit) : M unit :=
  match xs with
  | [] => ret tt
  | x :: xs' => _ <- body x ;; for_each xs' body
  end.

(** [cv2.cvtColor(frame, cv2.COLOR_BGR2RGB)]: a new array with the first and
    third channel of every pixel exchanged. *)
Fixpoint swap_rb (d : list Byte.byte) : list Byte.byte :=
  match d with
  | b :: g :: r :: d' => r :: g :: b :: swap_rb d'
  | _ => d
  end.

Definition cvtColor_BGR2RGB (im : image) : image :=
  Image (rows im) (cols im) (swap_rb (pixels im)).

(** [draw_pt(pt_arr)], line 102, with the variables it closes over. *)
Definition draw_pt (is_facing_left : bool) (w : R) (pt_arr : point) : pixel :=
  let x := py_int (px pt_arr) in
  let y := py_int (py pt_arr) in
  let x := if is_facing_left then py_int (w - px pt_arr) else x in
  (x, y).

(** Line 68: the landmarks of one pose scaled to pixel coordinates. *)
Definition to_pixels (w h : R) (lm : list landmark) : list point :=
  map (fun p => Pt (lx p * w) (ly p * h)) lm.

(** Lines 70-83 of [process_frame], the orientation normalizer: the facing
    flag from the nose and the shoulders of [lms_px], and [math_lms], a copy
    of [lms_px] whose x-coordinates are mirrored in place when the subject
    faces left. *)
Definition normalize_orientation (w : R) (lms_px : loc) : M (bool * loc) :=
  nose_x <- getitem0 lms_px 0 ;;
  l_sh_x <- getitem0 lms_px 11 ;;
  r_sh_x <- getitem0 lms_px 12 ;;
  let avg_sh_x := (l_sh_x + r_sh_x) / 2 in
  let is_facing_left := Rltb nose_x avg_sh_x in
  math_lms <- copy_array lms_px ;;
  _ <- (if is_facing_left then
          n <- len math_lms ;;
          for_each (seq 0 n) (fun i =>
            x <- getitem0 math_lms i ;;
            setitem0 math_lms i (w - x))
        else ret tt) ;;
  ret (is_facing_left, math_lms).

(** Lines 85-100 of [process_frame], the feature extractor and the call of
    the classifier.  The anchor points are read out of [math_lms] as
    values: no write follows their reads. *)
Definition extract_features (is_facing_left : bool) (math_lms : loc)
  : M features :=
  head <- getrow math_lms 0 ;;
  a11 <- getrow math_lms 11 ;;
  a12 <- getrow math_lms 12 ;;
  let neck := midpoint a11 a12 in
  a23 <- getrow math_lms 23 ;;
  a24 <- getrow math_lms 24 ;;
  let hip := midpoint a23 a24 in
  x11 <- getitem0 math_lms 11 ;;
  x12 <- getitem0 math_lms 12 ;;
  x23 <- getitem0 math_lms 23 ;;
  x24 <- getitem0 math_lms 24 ;;
  y11 <- getitem1 math_lms 11 ;;
  y12 <- getitem1 math_lms 12 ;;
  y23 <- getitem1 math_lms 23 ;;
  y24 <- getitem1 math_lms 24 ;;
  let chest := Pt ((x11 + x12 + x23 + x24) / 4) ((y11 + y12 + y23 + y24) / 4) in
  let theta1 := angle_between head neck in
  let theta2 := angle_between neck chest in
  let theta3 := angle_between chest hip in
  let theta4 := (0.6 * theta1) + (0.2 * theta2) + (0.2 * theta3) in
  let '(label, color) := classify_posture theta1 theta2 theta3 theta4 in
  ret (Features is_facing_left head neck chest hip
                theta1 theta2 theta3 theta4 label color).

(** Lines 70-100 of [process_frame]: from the pixel landmarks to the angles
    and the label. *)
Definition analyse_pose (w : R) (lms_px : loc) : M features :=
  r <- normalize_orientation w lms_px ;;
  extract_features (fst r) (snd r).

(** The drawing calls of lines 108-125, in order. *)
Definition overlay (w : R) (f : features) : list draw_cmd :=
  let dp := draw_pt (is_facing_left f) w in
  [ Line (dp (head f)) (dp (neck f)) (255, 255, 0)%Z 2;
    Line (dp (neck f)) (dp (chest f)) (255, 255, 0)%Z 2;
    Line (dp (chest f)) (dp (hip f)) (255, 255, 0)%Z 2 ]
  ++ map (fun pt => Circle (dp pt) 6 (0, 255, 255)%Z (-1))
         [head f; neck f; chest f; hip f]
  ++ [ PutText ("Posture: " ++ label f) (30, 50)%Z 1 (label_color f) 2;
       PutText ("T1:" ++ py_str (py_int (theta1 f)) ++
                " T2:" ++ py_str (py_int (theta2 f)) ++
                " T3:" ++ py_str (py_int (theta3 f)) ++
                " T4:" ++ py_str (py_int (theta4 f)))
               (30, 90)%Z 0.6 (200, 200, 200)%Z 1;
       PutText ("Facing: " ++ (if is_facing_left f then "LEFT" else "RIGHT"))
               (30, 120)%Z 0.6 (0, 255, 255)%Z 1 ].

Section Pipeline.

(** [detector.detect_for_video(mp_image, ts).pose_landmarks]: the landmark
    lists of the poses found in an RGB image; empty when none is found. *)
Variable detect_for_video : image -> Z -> list (list landmark).

(** What one [cv2] drawing call does to the pixels of a frame. *)
Variable rasterize : draw_cmd -> image -> image.

(** A [cv2] drawing call: in place, on the frame at [img]. *)
Definition cv2_draw (img : loc) (c : draw_cmd) : M unit :=
  im <- read_image img ;;
  write img (Img (rasterize c im)).

(** [process_frame(detector, frame_bgr, timestamp_ms)], line 54.  [rgb]
    and [mp_image] are fresh arrays that are only read. *)
Definition process_frame (frame_bgr : loc) (timestamp_ms : Z) : M loc :=
  im <- read_image frame_bgr ;;
  let h := INR (rows im) in
  let w := INR (cols im) in
  let rgb := cvtColor_BGR2RGB im in
  let det := detect_for_video rgb timestamp_ms in
  out_frame <- copy_image frame_bgr ;;
  match det with
  | [] => ret out_frame
  | lm :: _ =>
      lms_px <- new (Arr (to_pixels w h lm)) ;;
      f <- analyse_pose w lms_px ;;
      _ <- for_each (overlay w f) (cv2_draw out_frame) ;;
      ret out_frame
  end.

End Pipeline.

(* ===================================================================== *)
(** ** The pipeline as values

    What the stateful code above computes, written on lists; the run
    lemmas below relate the two. *)
(* ===================================================================== *)

(** The horizontal mirror of a pixel point in a frame of width [w]. *)
Definition mirror (w : R) (p : point) : point := Pt (w - px p) (py p).

(** The facing flag of a pixel landmark array; [None] when a row is
    missing. *)
Definition facing_left (a : list point) : option bool :=
  nose ← a !! 0%nat;
  l_sh ← a !! 11%nat;
  r_sh ← a !! 12%nat;
  Some (Rltb (px nose) ((px l_sh + px r_sh) / 2)).

(** The array the angles are computed on. *)
Definition canonical (w : R) (is_facing_left : bool) (a : list point)
  : list point :=
  if is_facing_left then map (mirror w) a else a.

(** Anchor points, angles and label from the five rows that are read. *)
Definition features_of_rows (is_facing_left : bool)
    (head a11 a12 a23 a24 : point) : features :=
  let neck := midpoint a11 a12 in
  let hip := midpoint a23 a24 in
  let chest := Pt ((px a11 + px a12 + px a23 + px a24) / 4)
                  ((py a11 + py a12 + py a23 + py a24) / 4) in
  let theta1 := angle_between head neck in
  let theta2 := angle_between neck chest in
  let theta3 := angle_between chest hip in
  let theta4 := (0.6 * theta1) + (0.2 * theta2) + (0.2 * theta3) in
  Features is_facing_left head neck chest hip theta1 theta2 theta3 theta4
           (fst (classify_posture theta1 theta2 theta3 theta4))
           (snd (classify_posture theta1 theta2 theta3 theta4)).

Definition features_of (is_facing_left : bool) (math : list point)
  : option features :=
  head ← math !! 0%nat;
  a11 ← math !! 11%nat;
  a12 ← math !! 12%nat;
  a23 ← math !! 23%nat;
  a24 ← math !! 24%nat;
  Some (features_of_rows is_facing_left head a11 a12 a23 a24).

(** The frame after a sequence of drawing calls. *)
Definition paint (rasterize : draw_cmd -> image -> image)
    (cmds : list draw_cmd) (im : image) : image :=
  fold_left (fun im c => rasterize c im) cmds im.

(** A result as an outcome: a missing row is an [IndexError]. *)
Definition of_option {A} (o : option A) : outcome A :=
  match o with
  | Some a => Ok a
  | None => Raise IndexError
  end.

(* ===================================================================== *)
(** ** Start-up and the camera loop (lines 14-26 and 129-158) *)
(* ===================================================================== *)

(** A pose detector, as [process_frame] uses it: from an RGB image and a
    timestamp to the landmark lists of the poses found.  Exceptions of the
    detector itself are not modelled. *)
Abbreviation detector := (image -> Z -> list (list landmark)).

(** What [main] does to the outside world, in order: a line printed, a
    frame shown in a window, the camera released, the windows closed. *)
Inductive event : Type :=
| Print (msg : string)
| Show (window : string) (im : image)
| Release
| DestroyAllWindows.

(** [init_pose_landmarker(model_path)], line 14.  [create_from_options]
    stands for the construction of the landmarker from the model file: a
    detector, or the text of the exception that it raises. *)
Definition init_pose_landmarker
    (create_from_options : string -> string + detector) (model_path : string)
  : option detector * list event :=
  match create_from_options model_path with
  | inr d => (Some d, [])
  | inl e => (None, [Print ("Error: " ++ e)])
  end.

(** What one iteration of the loop of [main] can observe: the frame of
    [cap.read()], [None] when [ret] is false; [time.time()]; the key code
    of [cv2.waitKey(1)]; the value of [cv2.getWindowProperty] for the
    visibility of the window. *)
Record tick : Type := Tick {
  cam : option image;
  now : R;
  key : Z;
  visible : R
}.

Definition Reqb (x y : R) : bool := if Req_dec_T x y then true else false.

(** [ord(c)]. *)
Definition ord (c : ascii) : Z := Z.of_nat (nat_of_ascii c).

Definition window_name : string := "Posture Classification".

(** How the loop of [main] ends on a finite sequence of observations: by a
    [break], by an exception, or not yet. *)
Inductive loop_end : Type :=
| Broke
| Raised (e : exn)
| Waiting.

(** How [main] ends. *)
Inductive main_end : Type :=
| Returned
| Uncaught (e : exn)
| Running.

Section CameraLoop.

(** What one [cv2] drawing call does to the pixels of a frame. *)
Variable rasterize : draw_cmd -> image -> image.

(** The loop of lines 140-155.  Every frame read is a new array. *)
Fixpoint main_loop (det : detector) (ticks : list tick) (s : heap)
  : loop_end * list event * heap :=
  match ticks with
  | [] => (Waiting, [], s)
  | t :: ticks' =>
      match cam t with
      | None => main_loop det ticks' s
      | Some im =>
          let ts := py_int (now t * 1000) in
          match (frame <- new (Img im) ;;
                 out_img <- process_frame det rasterize frame ts ;;
                 read_image out_img) s with
          | (Raise e, s') => (Raised e, [], s')
          | (Ok shown, s') =>
              if Z.eqb (Z.land (key t) 0xFF) (ord "q") then
                (Broke, [Show window_name shown], s')
              else if Reqb (visible t) 0 then
                (Broke, [Show window_name shown], s')
              else
                let '(r, evs, s'') := main_loop det ticks' s' in
                (r, Show window_name shown :: evs, s'')
          end
      end
  end.

(** [main()], line 129.  [isOpened] is the answer of [cap.isOpened()]. *)
Definition main (create_from_options : string -> string + detector)
    (isOpened : bool) (ticks : list tick) (s : heap)
  : main_end * list event * heap :=
  let '(det, evs0) :=
    init_pose_landmarker create_from_options "pose_landmarker_full.task" in
  match det with
  | None => (Returned, evs0, s)
  | Some det =>
      if negb isOpened then (Returned, evs0, s)
      else
        match main_loop det ticks s with
        | (Broke, evs, s') =>
            (Returned, evs0 ++ evs ++ [Release; DestroyAllWindows], s')
        | (Raised e, evs, s') => (Uncaught e, evs0 ++ evs, s')
        | (Waiting, evs, s') => (Running, evs0 ++ evs, s')
        end
  end.

End CameraLoop.

(** The frame that [process_frame] returns, as a value: the input frame
    when no pose is found, the input frame with the overlay drawn on it
    when one is found, an [IndexError] when a row that is read is
    missing. *)
Definition rendered (det : detector) (rasterize : draw_cmd -> image -> image)
    (im : image) (ts : Z) : outcome image :=
  match det (cvtColor_BGR2RGB im) ts with
  | [] => Ok im
  | lm :: _ =>
      let w := INR (cols im) in
      let a := to_pixels w (INR (rows im)) lm in
      match facing_left a with
      | None => Raise IndexError
      | Some b =>
          match features_of b (canonical w b a) with
          | None => Raise IndexError
          | Some f => Ok (paint rasterize (overlay w f) im)
          end
      end
  end.

(** Whether the loop breaks after having shown the frame of [t]. *)
Definition quits (t : tick) : bool :=
  Z.eqb (Z.land (key t) 0xFF) (ord "q") || Reqb (visible t) 0.

(** The frames shown for a sequence of observations none of which breaks
    the loop or raises. *)
Definition shows (det : detector) (rasterize : draw_cmd -> image -> image)
    (ticks : list tick) : list event :=
  omap (fun t =>
          im ← cam t;
          match rendered det rasterize im (py_int (now t * 1000)) with
          | Ok shown => Some (Show window_name shown)
          | Raise _ => None
          end) ticks.

(** An observation after which the loop goes on: the read fails, or the
    frame is processed without an exception and neither the key nor the
    window ends the loop. *)
Definition goes_on (det : detector) (rasterize : draw_cmd -> image -> image)
    (t : tick) : Prop :=
  match cam t with
  | None => True
  | Some im =>
      (exists shown : image,
         rendered det rasterize im (py_int (now t * 1000)) = Ok shown)
      /\ quits t = false
  end.

(* ===================================================================== *)
(** ** Example poses *)
(* ===================================================================== *)

(** A pixel landmark array of 33 rows with the given nose, shoulders and
    hips; the rows that are not read are at the origin. *)
Definition pose_of (nose l_sh r_sh l_hip r_hip : point) : list point :=
  [nose] ++ replicate 10 (Pt 0 0) ++ [l_sh; r_sh]
  ++ replicate 10 (Pt 0 0) ++ [l_hip; r_hip] ++ replicate 8 (Pt 0 0).

(** The nose exactly above the middle of the shoulders, the hips down and
    to the left. *)
Definition tie_pose : list point :=
  pose_of (Pt 100 0) (Pt 100 50) (Pt 100 50) (Pt 0 150) (Pt 0 150).

(** A subject that stands upright. *)
Definition upright_pose : list point :=
  pose_of (Pt 100 0) (Pt 90 50) (Pt 110 50) (Pt 90 150) (Pt 110 150).

(** A subject that leans, the nose right of the shoulders. *)
Definition leaning_pose : list point :=
  pose_of (Pt 120 0) (Pt 100 50) (Pt 100 50) (Pt 0 150) (Pt 0 150).

(** The same subject seen from the other side, the nose left of the
    shoulders. *)
Definition left_pose : list point :=
  pose_of (Pt 80 0) (Pt 100 50) (Pt 100 50) (Pt 200 150) (Pt 200 150).

(** The landmarks of [upright_pose] in a frame of 640 by 480 pixels. *)
Definition upright_landmarks : list landmark :=
  map (fun p => Landmark (px p / 640) (py p / 480)) upright_pose.

(** A frame of two by two pixels. *)
Definition small_frame : image :=
  Image 2 2 (replicate 12 Byte.x10).

(** A detector that finds no pose, and one that finds the upright pose. *)
Definition no_pose (_ : image) (_ : Z) : list (list landmark) := [].
Definition one_pose (_ : image) (_ : Z) : list (list landmark) :=
  [upright_landmarks].

(** A renderer that paints the whole frame black at every call. *)
Definition blackout (_ : draw_cmd) (im : image) : image :=
  Image (rows im) (cols im) (map (fun _ => Byte.x00) (pixels im)).

(** A detector that reports a pose without landmarks. *)
Definition empty_pose (_ : image) (_ : Z) : list (list landmark) := [[]].

(** A model loader that fails, and one that gives [one_pose]. *)
Definition no_model (_ : string) : string + detector := inl "no model"%string.
Definition upright_model (_ : string) : string + detector := inr one_pose.

(** A failed read; a frame read with no key pressed and the window
    visible; a frame read with the key q pressed. *)
Definition failed_read : tick := Tick None 0 (-1) 1.
Definition quiet_read : tick := Tick (Some small_frame) 0 (-1) 1.
Definition q_read : tick := Tick (Some small_frame) 0 113 1.

(* ===================================================================== *)
(** * Properties *)
(* ===================================================================== *)

(** ** Comparisons *)

Lemma Rltb_true x y : Rltb x y = true <-> x < y.
Proof. unfold Rltb. destruct (Rlt_dec x y); split; intros; auto; discriminate. Qed.

Lemma Rltb_false x y : Rltb x y = false <-> y <= x.
Proof.
  unfold Rltb. destruct (Rlt_dec x y); split; intros; auto; try discriminate; lra.
Qed.

Lemma Rleb_true x y : Rleb x y = true <-> x <= y.
Proof. unfold Rleb. destruct (Rle_dec x y); split; intros; auto; discriminate. Qed.

Lemma Rleb_false x y : Rleb x y = false <-> y < x.
Proof.
  unfold Rleb. destruct (Rle_dec x y); split; intros; auto; try discriminate; lra.
Qed.

Lemma Rgtb_true x y : Rgtb x y = true <-> x > y.
Proof. unfold Rgtb. rewrite Rltb_true. unfold Rgt. tauto. Qed.

Lemma Rgtb_false x y : Rgtb x y = false <-> x <= y.
Proof. unfold Rgtb. apply Rltb_false. Qed.

(** Case analysis on every float comparison in the goal. *)
Ltac cmp_cases :=
  repeat match goal with
  | |- context [Rgtb ?a ?b] =>
      let E := fresh "E" in
      destruct (Rgtb a b) eqn:E;
      [apply Rgtb_true in E | apply Rgtb_false in E]
  | |- context [Rltb ?a ?b] =>
      let E := fresh "E" in
      destruct (Rltb a b) eqn:E;
      [apply Rltb_true in E | apply Rltb_false in E]
  | |- context [Rleb ?a ?b] =>
      let E := fresh "E" in
      destruct (Rleb a b) eqn:E;
      [apply Rleb_true in E | apply Rleb_false in E]
  end.

(** ** Classifier *)

(** The three branches of [classify_posture] by their conditions. *)
Lemma classify_posture_cases (t1 t2 t3 t4 : R) :
  (classify_posture t1 t2 t3 t4 = ("L-Posture"%string, (0, 165, 255)%Z)
   <-> (t2 > 105 /\ t3 > 110))
  /\ (classify_posture t1 t2 t3 t4 = ("T-Posture"%string, (0, 0, 255)%Z)
      <-> (~ (t2 > 105 /\ t3 > 110) /\ t1 <= 70 /\ t4 <= 80))
  /\ (classify_posture t1 t2 t3 t4 = ("Good Posture"%string, (0, 255, 0)%Z)
      <-> (~ (t2 > 105 /\ t3 > 110) /\ ~ (t1 <= 70 /\ t4 <= 80))).
Proof.
  unfold classify_posture, TH1, TH2, TH3, TH4.
  cmp_cases; cbn [andb];
    (repeat split; intros; try discriminate; try reflexivity; try lra;
     try (exfalso; lra);
     repeat match goal with
            | H : _ /\ _ |- _ => destruct H
            | H : ~ _ |- _ => try (exfalso; apply H; split; lra)
            end; try lra).
Qed.

(** C1. [classify_posture] is the ordered decision rule: L-Posture with
    colour (0,165,255) exactly when theta2 > 105 and theta3 > 110;
    otherwise T-Posture with colour (0,0,255) exactly when theta1 <= 70 and
    theta4 <= 80; otherwise Good Posture with colour (0,255,0).  At
    theta2 = 105, theta3 = 110 the L rule does not fire; at theta1 = 70,
    theta4 = 80 the T rule does; when both rules hold the result is
    L-Posture. *)
Theorem classify_posture_decision_rule :
  (forall t1 t2 t3 t4 : R,
     (classify_posture t1 t2 t3 t4 = ("L-Posture"%string, (0, 165, 255)%Z)
      <-> (t2 > 105 /\ t3 > 110))
     /\ (classify_posture t1 t2 t3 t4 = ("T-Posture"%string, (0, 0, 255)%Z)
         <-> (~ (t2 > 105 /\ t3 > 110) /\ t1 <= 70 /\ t4 <= 80))
     /\ (classify_posture t1 t2 t3 t4 = ("Good Posture"%string, (0, 255, 0)%Z)
         <-> (~ (t2 > 105 /\ t3 > 110) /\ ~ (t1 <= 70 /\ t4 <= 80))))
  /\ (forall t1 t4 : R,
        classify_posture t1 105 110 t4 <> ("L-Posture"%string, (0, 165, 255)%Z))
  /\ classify_posture 70 105 110 80 = ("T-Posture"%string, (0, 0, 255)%Z)
  /\ (forall t1 t4 : R,
        classify_posture t1 105.01 110.01 t4
        = ("L-Posture"%string, (0, 165, 255)%Z))
  /\ classify_posture 70.01 105 110 80 = ("Good Posture"%string, (0, 255, 0)%Z)
  /\ (forall t1 t2 t3 t4 : R,
        t2 > 105 /\ t3 > 110 -> t1 <= 70 /\ t4 <= 80 ->
        classify_posture t1 t2 t3 t4 = ("L-Posture"%string, (0, 165, 255)%Z)).
Proof.
  split; [exact classify_posture_cases|].
  split.
  { intros t1 t4 H. apply (classify_posture_cases t1 105 110 t4) in H. lra. }
  split.
  { apply (classify_posture_cases 70 105 110 80). repeat split; lra. }
  split.
  { intros t1 t4. apply (classify_posture_cases t1 105.01 110.01 t4). split; lra. }
  split.
  { apply (classify_posture_cases 70.01 105 110 80). split; intros [? ?]; lra. }
  intros t1 t2 t3 t4 HL _. now apply classify_posture_cases.
Qed.

(** C9. [classify_posture] is a total, deterministic function: on every
    real quadruple it returns one of its three label-colour pairs, and on
    equal quadruples it returns equal results. *)
Theorem classify_posture_total_deterministic
    (a1 a2 a3 a4 b1 b2 b3 b4 : R) :
  a1 = b1 -> a2 = b2 -> a3 = b3 -> a4 = b4 ->
  classify_posture a1 a2 a3 a4 = classify_posture b1 b2 b3 b4
  /\ (classify_posture a1 a2 a3 a4 = ("L-Posture"%string, (0, 165, 255)%Z)
      \/ classify_posture a1 a2 a3 a4 = ("T-Posture"%string, (0, 0, 255)%Z)
      \/ classify_posture a1 a2 a3 a4 = ("Good Posture"%string, (0, 255, 0)%Z)).
Proof.
  intros -> -> -> ->. split; [reflexivity|].
  unfold classify_posture.
  destruct (Rgtb b2 TH1 && Rgtb b3 TH2); [now left|].
  destruct (Rleb b1 TH3 && Rleb b4 TH4); [now right; left | now right; right].
Qed.

Lemma classify_posture_total_deterministic_witness :
  classify_posture 90 90 90 90 = classify_posture 90 90 90 90
  /\ (classify_posture 90 90 90 90 = ("L-Posture"%string, (0, 165, 255)%Z)
      \/ classify_posture 90 90 90 90 = ("T-Posture"%string, (0, 0, 255)%Z)
      \/ classify_posture 90 90 90 90 = ("Good Posture"%string, (0, 255, 0)%Z)).
Proof.
  apply (classify_posture_total_deterministic 90 90 90 90 90 90 90 90);
    reflexivity.
Defined.

(** ** Geometry *)

(** C8. [midpoint] is commutative, and each component of its result is the
    arithmetic mean of the corresponding components of its arguments. *)
Theorem midpoint_comm (a b : point) :
  midpoint a b = midpoint b a
  /\ px (midpoint a b) = (px a + px b) / 2
  /\ py (midpoint a b) = (py a + py b) / 2.
Proof.
  unfold midpoint; cbn. repeat split. f_equal; lra.
Qed.

(** *** The arctangent and [atan2] *)

Lemma atan_pos (t : R) : 0 < t -> 0 < atan t < PI / 2.
Proof.
  intros Ht. pose proof (atan_bound t) as [_ Hu].
  pose proof (atan_increasing 0 t Ht) as Hi. rewrite atan_0 in Hi. lra.
Qed.

Lemma atan_neg (t : R) : t < 0 -> - (PI / 2) < atan t < 0.
Proof.
  intros Ht. pose proof (atan_bound t) as [Hl _].
  pose proof (atan_increasing t 0 Ht) as Hi. rewrite atan_0 in Hi. lra.
Qed.

Lemma div_pos_pos (y x : R) : 0 < x -> 0 < y -> 0 < y / x.
Proof.
  intros Hx Hy. unfold Rdiv. apply Rmult_lt_0_compat; [lra|].
  now apply Rinv_0_lt_compat.
Qed.

Lemma div_opp_opp (y x : R) : x <> 0 -> - y / - x = y / x.
Proof. intros Hx. field. exact Hx. Qed.

Lemma div_opp_r (y x : R) : x <> 0 -> y / - x = - (y / x).
Proof. intros Hx. field. exact Hx. Qed.

Lemma div_zero_l (x : R) : 0 / x = 0.
Proof. unfold Rdiv. ring. Qed.

(** The sign of [atan (y / x)] from the signs of [x] and [y]. *)
Lemma atan_div_sign (y x : R) :
  x <> 0 ->
  (0 < y * x -> 0 < atan (y / x) < PI / 2)
  /\ (y * x < 0 -> - (PI / 2) < atan (y / x) < 0)
  /\ (y = 0 -> atan (y / x) = 0).
Proof.
  intros Hx. split; [|split].
  - intros H. apply atan_pos. destruct (Rlt_dec 0 x) as [Hp|Hn].
    + apply div_pos_pos; nra.
    + rewrite <- div_opp_opp by lra. apply div_pos_pos; nra.
  - intros H. apply atan_neg. destruct (Rlt_dec 0 x) as [Hp|Hn].
    + assert (0 < (- y) / x) by (apply div_pos_pos; nra).
      unfold Rdiv in *. lra.
    + assert (H0 : 0 < y / (- x)) by (apply div_pos_pos; nra).
      rewrite div_opp_r in H0 by lra. lra.
  - intros ->. rewrite div_zero_l. apply atan_0.
Qed.

(** [atan2] by cases, with the sign information of each case. *)
Lemma atan2_cases (y x : R) :
  (0 < x /\ atan2 y x = atan (y / x))
  \/ (x < 0 /\ 0 <= y /\ atan2 y x = atan (y / x) + PI)
  \/ (x < 0 /\ y < 0 /\ atan2 y x = atan (y / x) - PI)
  \/ (x = 0 /\ 0 < y /\ atan2 y x = PI / 2)
  \/ (x = 0 /\ y < 0 /\ atan2 y x = - (PI / 2))
  \/ (x = 0 /\ y = 0 /\ atan2 y x = 0).
Proof.
  unfold atan2. cmp_cases.
  - left. split; [lra | reflexivity].
  - right; left. repeat split; try lra.
  - right; right; left. repeat split; try lra.
  - right; right; right; left. repeat split; try lra.
  - right; right; right; right; left. repeat split; try lra.
  - right; right; right; right; right. repeat split; try lra.
Qed.

(** [math.atan2] returns an angle in (-PI, PI]. *)
Lemma atan2_range (y x : R) : - PI < atan2 y x <= PI.
Proof.
  pose proof PI_RGT_0 as Hpi.
  destruct (atan2_cases y x)
    as [(Hx & ->)|[(Hx & Hy & ->)|[(Hx & Hy & ->)|[(Hx & Hy & ->)
       |[(Hx & Hy & ->)|(Hx & Hy & ->)]]]]]; try lra.
  - pose proof (atan_bound (y / x)). lra.
  - destruct (atan_div_sign y x ltac:(lra)) as (_ & Hn & Hz).
    destruct (Req_dec y 0) as [E|E].
    + rewrite (Hz E). lra.
    + assert (y * x < 0) by nra. specialize (Hn H). lra.
  - destruct (atan_div_sign y x ltac:(lra)) as (Hp & _ & _).
    assert (0 < y * x) by nra. specialize (Hp H). lra.
Qed.

Lemma degrees_scale : 0 < 180 / PI /\ PI * (180 / PI) = 180.
Proof.
  pose proof PI_RGT_0 as Hpi. split.
  - apply div_pos_pos; lra.
  - field. lra.
Qed.

Lemma Rabs_degrees (a : R) : Rabs (degrees a) = Rabs a * (180 / PI).
Proof.
  unfold degrees. destruct degrees_scale as [Hk _].
  rewrite Rabs_mult. f_equal. apply Rabs_pos_eq. lra.
Qed.

(** The magnitude in degrees of an [atan2] result is at most 180. *)
Lemma Rabs_degrees_atan2_bound (y x : R) :
  0 <= Rabs (degrees (atan2 y x)) <= 180.
Proof.
  split; [apply Rabs_pos|].
  rewrite Rabs_degrees. destruct degrees_scale as [Hk Hpi].
  pose proof (atan2_range y x) as [Hl Hu].
  assert (Rabs (atan2 y x) <= PI) by (apply Rabs_le; lra).
  assert (Rabs (atan2 y x) * (180 / PI) <= PI * (180 / PI))
    by (apply Rmult_le_compat_r; lra).
  lra.
Qed.

Ltac abs_cases := unfold Rabs; repeat destruct Rcase_abs; try lra.

(** The magnitude of an [atan2] result is a right angle exactly for the
    non-zero vertical vectors. *)
Lemma Rabs_atan2_right_angle (y x : R) :
  Rabs (atan2 y x) = PI / 2 <-> (x = 0 /\ y <> 0).
Proof.
  pose proof PI_RGT_0 as Hpi.
  destruct (atan2_cases y x)
    as [(Hx & E)|[(Hx & Hy & E)|[(Hx & Hy & E)|[(Hx & Hy & E)
       |[(Hx & Hy & E)|(Hx & Hy & E)]]]]]; rewrite E.
  - pose proof (atan_bound (y / x)). split; [|lra]. revert H. abs_cases.
  - destruct (atan_div_sign y x ltac:(lra)) as (_ & Hn & Hz).
    split; [|lra]. destruct (Req_dec y 0) as [Ey|Ey].
    + rewrite (Hz Ey). abs_cases.
    + assert (Hyx : y * x < 0) by nra. specialize (Hn Hyx). abs_cases.
  - destruct (atan_div_sign y x ltac:(lra)) as (Hp & _ & _).
    split; [|lra]. assert (Hyx : 0 < y * x) by nra. specialize (Hp Hyx).
    abs_cases.
  - split; [intros _; split; lra|]. intros _. abs_cases.
  - split; [intros _; split; lra|]. intros _. abs_cases.
  - split; [|lra]. abs_cases.
Qed.

(** The test [ang > 180] of [angle_between] is false on every input. *)
Lemma correction_never_fires (y x : R) :
  Rgtb (Rabs (degrees (atan2 y x))) 180 = false.
Proof.
  pose proof (Rabs_degrees_atan2_bound y x). apply Rgtb_false. lra.
Qed.

Lemma angle_between_eq (p1 p2 : point) :
  angle_between p1 p2
  = Rabs (atan2 (py p1 - py p2) (px p1 - px p2)) * (180 / PI).
Proof.
  unfold angle_between. cbv zeta. rewrite correction_never_fires.
  apply Rabs_degrees.
Qed.

(** C3. [angle_between] returns a value in [0, 180]; the test
    [ang > 180] of its last branch is never true, and the function equals
    the one without that branch. *)
Theorem angle_between_range (p1 p2 : point) :
  0 <= angle_between p1 p2 <= 180
  /\ Rgtb (Rabs (degrees (atan2 (py p1 - py p2) (px p1 - px p2)))) 180 = false
  /\ angle_between p1 p2 = angle_between_no_correction p1 p2.
Proof.
  pose proof (Rabs_degrees_atan2_bound (py p1 - py p2) (px p1 - px p2)) as Hb.
  pose proof (correction_never_fires (py p1 - py p2) (px p1 - px p2)) as Hg.
  unfold angle_between, angle_between_no_correction. cbv zeta.
  rewrite Hg. auto.
Qed.

(** ** Running the stateful code *)

Lemma bind_run {A B} (m : M A) (k : A -> M B) (s : heap) :
  bind m k s = match m s with
               | (Ok a, s') => k a s'
               | (Raise e, s') => (Raise e, s')
               end.
Proof. reflexivity. Qed.

Lemma read_array_run (s : heap) (l : loc) (a : list point) :
  s !! l = Some (Arr a) -> read_array l s = (Ok a, s).
Proof. intros H. unfold read_array. now rewrite H. Qed.

Lemma read_image_run (s : heap) (l : loc) (im : image) :
  s !! l = Some (Img im) -> read_image l s = (Ok im, s).
Proof. intros H. unfold read_image. now rewrite H. Qed.

Lemma getrow_run (s : heap) (l : loc) (a : list point) (i : nat) :
  s !! l = Some (Arr a) -> getrow l i s = (of_option (a !! i), s).
Proof.
  intros H. unfold getrow. rewrite bind_run, (read_array_run s l a H).
  now destruct (a !! i).
Qed.

Lemma getitem0_run (s : heap) (l : loc) (a : list point) (i : nat) :
  s !! l = Some (Arr a) -> getitem0 l i s = (of_option (px <$> a !! i), s).
Proof.
  intros H. unfold getitem0. rewrite bind_run, (getrow_run s l a i H).
  now destruct (a !! i).
Qed.

Lemma getitem1_run (s : heap) (l : loc) (a : list point) (i : nat) :
  s !! l = Some (Arr a) -> getitem1 l i s = (of_option (py <$> a !! i), s).
Proof.
  intros H. unfold getitem1. rewrite bind_run, (getrow_run s l a i H).
  now destruct (a !! i).
Qed.

Lemma copy_array_run (s : heap) (l : loc) (a : list point) :
  s !! l = Some (Arr a) -> copy_array l s = (Ok (length s), s ++ [Arr a]).
Proof.
  intros H. unfold copy_array. now rewrite bind_run, (read_array_run s l a H).
Qed.

Lemma copy_image_run (s : heap) (l : loc) (im : image) :
  s !! l = Some (Img im) -> copy_image l s = (Ok (length s), s ++ [Img im]).
Proof.
  intros H. unfold copy_image. now rewrite bind_run, (read_image_run s l im H).
Qed.

Lemma len_run (s : heap) (l : loc) (a : list point) :
  s !! l = Some (Arr a) -> len l s = (Ok (length a), s).
Proof.
  intros H. unfold len. now rewrite bind_run, (read_array_run s l a H).
Qed.

Lemma setitem0_run (s : heap) (l : loc) (a : list point) (i : nat)
    (p : point) (v : R) :
  s !! l = Some (Arr a) -> a !! i = Some p ->
  setitem0 l i v s = (Ok tt, <[l := Arr (<[i := Pt v (py p)]> a)]> s).
Proof.
  intros H Hi. unfold setitem0.
  rewrite bind_run, (read_array_run s l a H), Hi. reflexivity.
Qed.

(** The mirroring loop of lines 82-83, started at row [k]: the rows from
    [k] on are mirrored, in the array at [l] and nowhere else. *)
Lemma mirror_loop_from (w : R) (l : loc) (n : nat) :
  forall (k : nat) (a : list point) (s : heap),
    s !! l = Some (Arr a) -> length a = (k + n)%nat ->
    for_each (seq k n)
      (fun i => x <- getitem0 l i ;; setitem0 l i (w - x)) s
    = (Ok tt, <[l := Arr (take k a ++ map (mirror w) (drop k a))]> s).
Proof.
  induction n as [|n IH]; intros k a s Hl Hlen.
  - cbn. unfold ret. f_equal.
    rewrite drop_ge by lia. rewrite take_ge by lia. cbn.
    rewrite app_nil_r. symmetry. now apply list_insert_id.
  - cbn [seq for_each].
    destruct (lookup_lt_is_Some_2 a k ltac:(lia)) as [p Hp].
    rewrite bind_run, bind_run, (getitem0_run s l a k Hl), Hp. cbn [fmap option_fmap option_map of_option].
    rewrite (setitem0_run s l a k p _ Hl Hp).
    set (a1 := <[k := Pt (w - px p) (py p)]> a).
    assert (Hl1 : <[l := Arr a1]> s !! l = Some (Arr a1)).
    { apply list_lookup_insert_eq. eapply lookup_lt_Some; eauto. }
    rewrite (IH (S k) a1 _ Hl1) by (unfold a1; rewrite length_insert; lia).
    rewrite list_insert_insert_eq.
    assert (Hk1 : a1 !! k = Some (Pt (w - px p) (py p))).
    { apply list_lookup_insert_eq. lia. }
    rewrite (take_S_r a1 k _ Hk1).
    unfold a1. rewrite take_insert_ge by lia. rewrite drop_insert_lt by lia.
    rewrite (drop_S a p k Hp). cbn [map]. rewrite <- app_assoc. reflexivity.
Qed.

Lemma mirror_loop_run (w : R) (l : loc) (a : list point) (s : heap) :
  s !! l = Some (Arr a) ->
  for_each (seq 0 (length a))
    (fun i => x <- getitem0 l i ;; setitem0 l i (w - x)) s
  = (Ok tt, <[l := Arr (map (mirror w) a)]> s).
Proof.
  intros Hl. rewrite (mirror_loop_from w l (length a) 0%nat a s Hl eq_refl).
  rewrite take_0, drop_0. reflexivity.
Qed.

(** One step of a run that reads the array [a] at the location of [H]. *)
Ltac run_read H :=
  rewrite bind_run;
  first [ rewrite (getrow_run _ _ _ _ H)
        | rewrite (getitem0_run _ _ _ _ H)
        | rewrite (getitem1_run _ _ _ _ H) ];
  repeat match goal with
         | E : ?a !! ?i = _ |- context [?a !! ?i] => rewrite E
         end;
  cbn [of_option fmap option_fmap option_map].

(** Lines 70-83 as a function of the pixel array. *)
Lemma normalize_orientation_run (w : R) (l : loc) (a : list point) (s : heap) :
  s !! l = Some (Arr a) ->
  normalize_orientation w l s
  = match facing_left a with
    | None => (Raise IndexError, s)
    | Some b => (Ok (b, length s), s ++ [Arr (canonical w b a)])
    end.
Proof.
  intros H. unfold normalize_orientation, facing_left.
  destruct (a !! 0%nat) as [nose|] eqn:E0; [|run_read H; reflexivity].
  run_read H.
  destruct (a !! 11%nat) as [l_sh|] eqn:E11; [|run_read H; reflexivity].
  run_read H.
  destruct (a !! 12%nat) as [r_sh|] eqn:E12; [|run_read H; reflexivity].
  run_read H. cbn [mbind option_bind].
  rewrite bind_run, (copy_array_run s l a H).
  assert (Hm : (s ++ [Arr a]) !! length s = Some (Arr a))
    by now apply list_lookup_middle.
  destruct (Rltb (px nose) ((px l_sh + px r_sh) / 2)); cbn [canonical].
  - rewrite bind_run, bind_run, (len_run _ _ a Hm), (mirror_loop_run w _ a _ Hm).
    unfold ret. rewrite insert_app_r_alt by lia. rewrite Nat.sub_diag.
    reflexivity.
  - rewrite bind_run. reflexivity.
Qed.

(** Lines 85-100 as a function of the canonical array. *)
Lemma extract_features_run (b : bool) (l : loc) (m : list point) (s : heap) :
  s !! l = Some (Arr m) ->
  extract_features b l s = (of_option (features_of b m), s).
Proof.
  intros H. unfold extract_features, features_of.
  destruct (m !! 0%nat) as [hd|] eqn:E0; [|run_read H; reflexivity].
  run_read H.
  destruct (m !! 11%nat) as [a11|] eqn:E11; [|run_read H; reflexivity].
  run_read H.
  destruct (m !! 12%nat) as [a12|] eqn:E12; [|run_read H; reflexivity].
  run_read H.
  destruct (m !! 23%nat) as [a23|] eqn:E23; [|run_read H; reflexivity].
  run_read H.
  destruct (m !! 24%nat) as [a24|] eqn:E24; [|run_read H; reflexivity].
  do 9 run_read H. cbn [mbind option_bind of_option].
  unfold features_of_rows. cbv zeta.
  destruct (classify_posture _ _ _ _) as [lab col]. reflexivity.
Qed.

(** Lines 70-100 as a function of the pixel array: the result, and the
    store, which grows by [math_lms] and is otherwise unchanged. *)
Lemma analyse_pose_run (w : R) (l : loc) (a : list point) (s : heap) :
  s !! l = Some (Arr a) ->
  analyse_pose w l s
  = match facing_left a with
    | None => (Raise IndexError, s)
    | Some b => (of_option (features_of b (canonical w b a)),
                 s ++ [Arr (canonical w b a)])
    end.
Proof.
  intros H. unfold analyse_pose.
  rewrite bind_run, (normalize_orientation_run w l a s H).
  destruct (facing_left a) as [b|]; [|reflexivity].
  cbn [fst snd]. apply extract_features_run. now apply list_lookup_middle.
Qed.

(** ** Angles of particular vectors *)

Lemma angle_between_vertical (p1 p2 : point) :
  px p1 = px p2 -> py p1 <> py p2 -> angle_between p1 p2 = 90.
Proof.
  intros Hx Hy. rewrite angle_between_eq.
  assert (E : Rabs (atan2 (py p1 - py p2) (px p1 - px p2)) = PI / 2).
  { apply Rabs_atan2_right_angle. split; lra. }
  rewrite E. pose proof PI_RGT_0. field. lra.
Qed.

(** A vector pointing right along the x-axis has angle 0, one pointing
    left has angle 180. *)
Lemma angle_between_right (p1 p2 : point) :
  py p1 = py p2 -> px p2 < px p1 -> angle_between p1 p2 = 0.
Proof.
  intros Hy Hx. rewrite angle_between_eq.
  destruct (atan_div_sign (py p1 - py p2) (px p1 - px p2) ltac:(lra))
    as (_ & _ & Hz).
  destruct (atan2_cases (py p1 - py p2) (px p1 - px p2))
    as [(Hx' & E)|[(Hx' & Hy' & E)|[(Hx' & Hy' & E)|[(Hx' & Hy' & E)
       |[(Hx' & Hy' & E)|(Hx' & Hy' & E)]]]]]; try lra.
  rewrite E, Hz by lra. rewrite Rabs_R0. ring.
Qed.

Lemma angle_between_left (p1 p2 : point) :
  py p1 = py p2 -> px p1 < px p2 -> angle_between p1 p2 = 180.
Proof.
  intros Hy Hx. rewrite angle_between_eq. pose proof PI_RGT_0 as Hpi.
  destruct (atan_div_sign (py p1 - py p2) (px p1 - px p2) ltac:(lra))
    as (_ & _ & Hz).
  destruct (atan2_cases (py p1 - py p2) (px p1 - px p2))
    as [(Hx' & E)|[(Hx' & Hy' & E)|[(Hx' & Hy' & E)|[(Hx' & Hy' & E)
       |[(Hx' & Hy' & E)|(Hx' & Hy' & E)]]]]]; try lra.
  rewrite E, Hz by lra. rewrite Rabs_pos_eq by lra. field. lra.
Qed.

(** Up and to the right on the screen (y decreasing) at 45 degrees. *)
Lemma angle_between_diag_right (p1 p2 : point) :
  0 < px p1 - px p2 -> py p1 - py p2 = - (px p1 - px p2) ->
  angle_between p1 p2 = 45.
Proof.
  intros Hx Hy. rewrite angle_between_eq. pose proof PI_RGT_0 as Hpi.
  destruct (atan2_cases (py p1 - py p2) (px p1 - px p2))
    as [(Hx' & E)|[(Hx' & Hy' & E)|[(Hx' & Hy' & E)|[(Hx' & Hy' & E)
       |[(Hx' & Hy' & E)|(Hx' & Hy' & E)]]]]]; try lra.
  rewrite E, Hy.
  replace (- (px p1 - px p2) / (px p1 - px p2)) with (Ropp 1) by (field; lra).
  rewrite atan_opp, atan_1. rewrite Rabs_left by lra. field. lra.
Qed.

(** Up and to the left on the screen at 45 degrees: the angle is 135. *)
Lemma angle_between_diag_left (p1 p2 : point) :
  px p1 - px p2 < 0 -> py p1 - py p2 = px p1 - px p2 ->
  angle_between p1 p2 = 135.
Proof.
  intros Hx Hy. rewrite angle_between_eq. pose proof PI_RGT_0 as Hpi.
  destruct (atan2_cases (py p1 - py p2) (px p1 - px p2))
    as [(Hx' & E)|[(Hx' & Hy' & E)|[(Hx' & Hy' & E)|[(Hx' & Hy' & E)
       |[(Hx' & Hy' & E)|(Hx' & Hy' & E)]]]]]; try lra.
  rewrite E, Hy.
  replace ((px p1 - px p2) / (px p1 - px p2)) with 1 by (field; lra).
  rewrite atan_1. rewrite Rabs_left by lra. field. lra.
Qed.

(** C4, counterexample.  From (1,0) to the origin the angle is 0, from the
    origin to (1,0) it is 180. *)
Lemma angle_between_not_symmetric :
  angle_between (Pt 1 0) (Pt 0 0) = 0
  /\ angle_between (Pt 0 0) (Pt 1 0) = 180
  /\ angle_between (Pt 1 0) (Pt 0 0) <> angle_between (Pt 0 0) (Pt 1 0).
Proof.
  assert (E1 : angle_between (Pt 1 0) (Pt 0 0) = 0)
    by (apply angle_between_right; cbn; lra).
  assert (E2 : angle_between (Pt 0 0) (Pt 1 0) = 180)
    by (apply angle_between_left; cbn; lra).
  rewrite E1, E2. repeat split. lra.
Qed.

(** ** Feature extraction *)

Lemma features_of_rows_fields (b : bool) (hd a11 a12 a23 a24 : point) :
  let f := features_of_rows b hd a11 a12 a23 a24 in
  is_facing_left f = b
  /\ head f = hd
  /\ neck f = midpoint a11 a12
  /\ chest f = Pt ((px a11 + px a12 + px a23 + px a24) / 4)
                  ((py a11 + py a12 + py a23 + py a24) / 4)
  /\ hip f = midpoint a23 a24
  /\ theta1 f = angle_between (head f) (neck f)
  /\ theta2 f = angle_between (neck f) (chest f)
  /\ theta3 f = angle_between (chest f) (hip f)
  /\ theta4 f = 0.6 * theta1 f + 0.2 * theta2 f + 0.2 * theta3 f
  /\ label f = fst (classify_posture (theta1 f) (theta2 f) (theta3 f) (theta4 f))
  /\ label_color f
     = snd (classify_posture (theta1 f) (theta2 f) (theta3 f) (theta4 f)).
Proof. cbv zeta. repeat split. Qed.

Lemma features_of_rows_lookup (b : bool) (m : list point)
    (hd a11 a12 a23 a24 : point) :
  m !! 0%nat = Some hd -> m !! 11%nat = Some a11 -> m !! 12%nat = Some a12 ->
  m !! 23%nat = Some a23 -> m !! 24%nat = Some a24 ->
  features_of b m = Some (features_of_rows b hd a11 a12 a23 a24).
Proof.
  intros E0 E11 E12 E23 E24. unfold features_of.
  rewrite E0, E11, E12, E23, E24. reflexivity.
Qed.

(** C5. The feature extractor reads the rows 0, 11, 12, 23 and 24 of the
    canonical array: head is row 0, neck the midpoint of rows 11 and 12,
    chest the componentwise mean of rows 11, 12, 23 and 24, hip the midpoint
    of rows 23 and 24; theta1, theta2, theta3 are [angle_between] of
    (head, neck), (neck, chest), (chest, hip), and
    theta4 = 0.6 theta1 + 0.2 theta2 + 0.2 theta3. *)
Theorem extract_features_anchors (b : bool) (l : loc) (m : list point)
    (s : heap) (p0 p11 p12 p23 p24 : point) :
  s !! l = Some (Arr m) ->
  m !! 0%nat = Some p0 -> m !! 11%nat = Some p11 -> m !! 12%nat = Some p12 ->
  m !! 23%nat = Some p23 -> m !! 24%nat = Some p24 ->
  exists f : features,
    extract_features b l s = (Ok f, s)
    /\ head f = p0
    /\ neck f = midpoint p11 p12
    /\ chest f = Pt ((px p11 + px p12 + px p23 + px p24) / 4)
                    ((py p11 + py p12 + py p23 + py p24) / 4)
    /\ hip f = midpoint p23 p24
    /\ theta1 f = angle_between (head f) (neck f)
    /\ theta2 f = angle_between (neck f) (chest f)
    /\ theta3 f = angle_between (chest f) (hip f)
    /\ theta4 f = 0.6 * theta1 f + 0.2 * theta2 f + 0.2 * theta3 f.
Proof.
  intros H E0 E11 E12 E23 E24.
  exists (features_of_rows b p0 p11 p12 p23 p24). split.
  - rewrite (extract_features_run b l m s H).
    now rewrite (features_of_rows_lookup b m _ _ _ _ _ E0 E11 E12 E23 E24).
  - pose proof (features_of_rows_fields b p0 p11 p12 p23 p24) as F.
    cbv zeta in F. tauto.
Qed.

Lemma extract_features_anchors_witness :
  exists f : features,
    extract_features false 0%nat [Arr upright_pose] = (Ok f, [Arr upright_pose])
    /\ head f = Pt 100 0
    /\ neck f = midpoint (Pt 90 50) (Pt 110 50)
    /\ chest f = Pt ((90 + 110 + 90 + 110) / 4) ((50 + 50 + 150 + 150) / 4)
    /\ hip f = midpoint (Pt 90 150) (Pt 110 150)
    /\ theta1 f = angle_between (head f) (neck f)
    /\ theta2 f = angle_between (neck f) (chest f)
    /\ theta3 f = angle_between (chest f) (hip f)
    /\ theta4 f = 0.6 * theta1 f + 0.2 * theta2 f + 0.2 * theta3 f.
Proof.
  apply (extract_features_anchors false 0%nat upright_pose [Arr upright_pose]
           (Pt 100 0) (Pt 90 50) (Pt 110 50) (Pt 90 150) (Pt 110 150));
    reflexivity.
Defined.

(** ** Orientation and end-to-end scenarios *)

Lemma facing_left_lookup (a : list point) (nose l_sh r_sh : point) :
  a !! 0%nat = Some nose -> a !! 11%nat = Some l_sh -> a !! 12%nat = Some r_sh ->
  facing_left a = Some (Rltb (px nose) ((px l_sh + px r_sh) / 2)).
Proof.
  intros E0 E11 E12. unfold facing_left. rewrite E0, E11, E12. reflexivity.
Qed.

Lemma lookup_mirror (w : R) (a : list point) (i : nat) (p : point) :
  a !! i = Some p -> map (mirror w) a !! i = Some (mirror w p).
Proof.
  intros E. change (map (mirror w) a) with (mirror w <$> a).
  rewrite list_lookup_fmap, E. reflexivity.
Qed.

(** C6. When the anchor points of a pixel landmark array lie on one
    vertical line at four different heights, in particular head above neck
    above chest above hip, the subject is taken as facing right, the four
    angles are 90 and the label is Good Posture. *)
Theorem vertical_line_good_posture (w : R) (l : loc) (a : list point)
    (s : heap) (p0 p11 p12 p23 p24 : point) :
  s !! l = Some (Arr a) ->
  a !! 0%nat = Some p0 -> a !! 11%nat = Some p11 -> a !! 12%nat = Some p12 ->
  a !! 23%nat = Some p23 -> a !! 24%nat = Some p24 ->
  px p0 = px (midpoint p11 p12) ->
  px (midpoint p11 p12) = (px p11 + px p12 + px p23 + px p24) / 4 ->
  (px p11 + px p12 + px p23 + px p24) / 4 = px (midpoint p23 p24) ->
  py p0 <> py (midpoint p11 p12) ->
  py (midpoint p11 p12) <> (py p11 + py p12 + py p23 + py p24) / 4 ->
  (py p11 + py p12 + py p23 + py p24) / 4 <> py (midpoint p23 p24) ->
  exists (f : features) (s' : heap),
    analyse_pose w l s = (Ok f, s')
    /\ is_facing_left f = false
    /\ head f = p0
    /\ neck f = midpoint p11 p12
    /\ chest f = Pt ((px p11 + px p12 + px p23 + px p24) / 4)
                    ((py p11 + py p12 + py p23 + py p24) / 4)
    /\ hip f = midpoint p23 p24
    /\ theta1 f = 90 /\ theta2 f = 90 /\ theta3 f = 90 /\ theta4 f = 90
    /\ label f = "Good Posture"%string
    /\ label_color f = (0, 255, 0)%Z.
Proof.
  intros H E0 E11 E12 E23 E24 X1 X2 X3 Y1 Y2 Y3.
  rewrite (analyse_pose_run w l a s H).
  rewrite (facing_left_lookup a _ _ _ E0 E11 E12).
  assert (Hb : Rltb (px p0) ((px p11 + px p12) / 2) = false).
  { apply Rltb_false. cbn [midpoint px] in X1. lra. }
  rewrite Hb. cbn [canonical].
  rewrite (features_of_rows_lookup false a _ _ _ _ _ E0 E11 E12 E23 E24).
  eexists; eexists; split; [reflexivity|].
  destruct (features_of_rows_fields false p0 p11 p12 p23 p24)
    as (Ff & Fh & Fn & Fc & Fp & F1 & F2 & F3 & F4 & Fl & Fcol).
  set (f := features_of_rows false p0 p11 p12 p23 p24) in *.
  assert (T1 : theta1 f = 90).
  { rewrite F1, Fh, Fn. apply angle_between_vertical; lra. }
  assert (T2 : theta2 f = 90).
  { rewrite F2, Fn, Fc. apply angle_between_vertical; cbn [px py]; lra. }
  assert (T3 : theta3 f = 90).
  { rewrite F3, Fc, Fp. apply angle_between_vertical; cbn [px py]; lra. }
  assert (T4 : theta4 f = 90) by (rewrite F4, T1, T2, T3; lra).
  assert (C : classify_posture 90 90 90 90
              = ("Good Posture"%string, (0, 255, 0)%Z)).
  { apply classify_posture_cases. split; intros [? ?]; lra. }
  rewrite Fl, Fcol, T1, T2, T3, T4, C. cbn [fst snd]. tauto.
Qed.

Lemma vertical_line_good_posture_witness :
  exists (f : features) (s' : heap),
    analyse_pose 640 0%nat [Arr upright_pose] = (Ok f, s')
    /\ is_facing_left f = false
    /\ head f = Pt 100 0
    /\ neck f = midpoint (Pt 90 50) (Pt 110 50)
    /\ chest f = Pt ((90 + 110 + 90 + 110) / 4) ((50 + 50 + 150 + 150) / 4)
    /\ hip f = midpoint (Pt 90 150) (Pt 110 150)
    /\ theta1 f = 90 /\ theta2 f = 90 /\ theta3 f = 90 /\ theta4 f = 90
    /\ label f = "Good Posture"%string
    /\ label_color f = (0, 255, 0)%Z.
Proof.
  apply (vertical_line_good_posture 640 0%nat upright_pose [Arr upright_pose]
           (Pt 100 0) (Pt 90 50) (Pt 110 50) (Pt 90 150) (Pt 110 150));
    try reflexivity; cbn [midpoint px py]; lra.
Defined.

(** The features of an array do not depend on the facing flag, which is
    only recorded. *)
Lemma features_of_flag (b b' : bool) (m : list point) (f : features) :
  features_of b m = Some f ->
  exists f' : features,
    features_of b' m = Some f'
    /\ is_facing_left f' = b' /\ is_facing_left f = b
    /\ head f' = head f /\ neck f' = neck f
    /\ chest f' = chest f /\ hip f' = hip f
    /\ theta1 f' = theta1 f /\ theta2 f' = theta2 f
    /\ theta3 f' = theta3 f /\ theta4 f' = theta4 f
    /\ label f' = label f /\ label_color f' = label_color f.
Proof.
  unfold features_of. intros Hf.
  destruct (m !! 0%nat) as [hd|]; [|discriminate].
  destruct (m !! 11%nat) as [a11|]; [|discriminate].
  destruct (m !! 12%nat) as [a12|]; [|discriminate].
  destruct (m !! 23%nat) as [a23|]; [|discriminate].
  destruct (m !! 24%nat) as [a24|]; [|discriminate].
  cbn [mbind option_bind] in *. injection Hf as <-.
  eexists; split; [reflexivity|]. repeat split.
Qed.

Lemma features_of_is_Some (b : bool) (m : list point) :
  (24 < length m)%nat -> is_Some (features_of b m).
Proof.
  intros Hlen. unfold features_of.
  destruct (lookup_lt_is_Some_2 m 0%nat ltac:(lia)) as [hd ->].
  destruct (lookup_lt_is_Some_2 m 11%nat ltac:(lia)) as [a11 ->].
  destruct (lookup_lt_is_Some_2 m 12%nat ltac:(lia)) as [a12 ->].
  destruct (lookup_lt_is_Some_2 m 23%nat ltac:(lia)) as [a23 ->].
  destruct (lookup_lt_is_Some_2 m 24%nat ltac:(lia)) as [a24 ->].
  cbn [mbind option_bind]. eauto.
Qed.

(** C2, as the code has it.  When a pixel landmark array is taken as
    facing left, [nose_x < avg_sh_x], and its horizontal mirror, every x
    replaced by [w - x], is taken as facing right, the two are analysed to
    the same anchor points, the same four angles and the same label and
    colour, with opposite facing flags: the array the angles are computed
    on is the same in both runs. *)
Theorem orientation_invariance_left_right (w : R) (l l' : loc)
    (a : list point) (s s' : heap) (nose l_sh r_sh : point) :
  s !! l = Some (Arr a) ->
  s' !! l' = Some (Arr (map (mirror w) a)) ->
  (24 < length a)%nat ->
  a !! 0%nat = Some nose -> a !! 11%nat = Some l_sh -> a !! 12%nat = Some r_sh ->
  px nose < (px l_sh + px r_sh) / 2 ->
  ~ (w - px nose < (w - px l_sh + (w - px r_sh)) / 2) ->
  exists (f f' : features) (s1 s1' : heap),
    analyse_pose w l s = (Ok f, s1)
    /\ analyse_pose w l' s' = (Ok f', s1')
    /\ is_facing_left f = true /\ is_facing_left f' = false
    /\ head f' = head f /\ neck f' = neck f
    /\ chest f' = chest f /\ hip f' = hip f
    /\ theta1 f' = theta1 f /\ theta2 f' = theta2 f
    /\ theta3 f' = theta3 f /\ theta4 f' = theta4 f
    /\ label f' = label f /\ label_color f' = label_color f.
Proof.
  intros H H' Hlen E0 E11 E12 Hleft Hright.
  rewrite (analyse_pose_run w l a s H).
  rewrite (analyse_pose_run w l' _ s' H').
  rewrite (facing_left_lookup a _ _ _ E0 E11 E12).
  rewrite (facing_left_lookup _ _ _ _ (lookup_mirror w a _ _ E0)
             (lookup_mirror w a _ _ E11) (lookup_mirror w a _ _ E12)).
  cbn [mirror px].
  replace (Rltb (px nose) ((px l_sh + px r_sh) / 2)) with true
    by (symmetry; apply Rltb_true; exact Hleft).
  replace (Rltb (w - px nose) ((w - px l_sh + (w - px r_sh)) / 2)) with false
    by (symmetry; destruct (Rltb (w - px nose)
                              ((w - px l_sh + (w - px r_sh)) / 2)) eqn:E;
        [apply Rltb_true in E; contradiction|reflexivity]).
  cbn [canonical].
  destruct (features_of_is_Some true (map (mirror w) a)) as [f Hf].
  { rewrite length_map. exact Hlen. }
  destruct (features_of_flag true false _ f Hf) as (f' & Hf' & F).
  rewrite Hf, Hf'. cbn [of_option].
  exists f, f'. eexists; eexists. split; [reflexivity|].
  split; [reflexivity|].
  destruct F as (F1 & F2 & F). split; [exact F2|]. split; [exact F1|exact F].
Qed.

Lemma orientation_invariance_left_right_witness :
  exists (f f' : features) (s1 s1' : heap),
    analyse_pose 200 0%nat [Arr left_pose; Arr (map (mirror 200) left_pose)]
    = (Ok f, s1)
    /\ analyse_pose 200 1%nat
         [Arr left_pose; Arr (map (mirror 200) left_pose)]
       = (Ok f', s1')
    /\ is_facing_left f = true /\ is_facing_left f' = false
    /\ head f' = head f /\ neck f' = neck f
    /\ chest f' = chest f /\ hip f' = hip f
    /\ theta1 f' = theta1 f /\ theta2 f' = theta2 f
    /\ theta3 f' = theta3 f /\ theta4 f' = theta4 f
    /\ label f' = label f /\ label_color f' = label_color f.
Proof.
  apply (orientation_invariance_left_right 200 0%nat 1%nat left_pose
           [Arr left_pose; Arr (map (mirror 200) left_pose)]
           [Arr left_pose; Arr (map (mirror 200) left_pose)]
           (Pt 80 0) (Pt 100 50) (Pt 100 50));
    try reflexivity.
  - change (24 < 33)%nat. lia.
  - cbn [px]. lra.
  - cbn [px]. lra.
Defined.

(** C2, counterexample.  In a frame of width 200, [tie_pose] has its nose
    exactly above the middle of its shoulders.  It and its mirror are both
    taken as facing right; the pose has theta2 = theta3 = 45 and the label
    Good Posture, its mirror has theta2 = theta3 = 135 and the label
    L-Posture. *)
Lemma orientation_invariance_fails_on_tie :
  exists (f f' : features) (s1 s1' : heap),
    analyse_pose 200 0%nat [Arr tie_pose; Arr (map (mirror 200) tie_pose)]
    = (Ok f, s1)
    /\ analyse_pose 200 1%nat [Arr tie_pose; Arr (map (mirror 200) tie_pose)]
       = (Ok f', s1')
    /\ is_facing_left f = false /\ is_facing_left f' = false
    /\ theta2 f = 45 /\ theta2 f' = 135
    /\ theta3 f = 45 /\ theta3 f' = 135
    /\ label f = "Good Posture"%string /\ label f' = "L-Posture"%string.
Proof.
  set (s := [Arr tie_pose; Arr (map (mirror 200) tie_pose)]).
  rewrite (analyse_pose_run 200 0%nat tie_pose s eq_refl).
  rewrite (analyse_pose_run 200 1%nat (map (mirror 200) tie_pose) s eq_refl).
  rewrite (facing_left_lookup tie_pose (Pt 100 0) (Pt 100 50) (Pt 100 50)
             eq_refl eq_refl eq_refl).
  rewrite (facing_left_lookup (map (mirror 200) tie_pose)
             (mirror 200 (Pt 100 0)) (mirror 200 (Pt 100 50))
             (mirror 200 (Pt 100 50)) eq_refl eq_refl eq_refl).
  assert (Eb : Rltb (px (Pt 100 0)) ((px (Pt 100 50) + px (Pt 100 50)) / 2)
               = false) by (apply Rltb_false; cbn [px]; lra).
  assert (Eb' : Rltb (px (mirror 200 (Pt 100 0)))
                  ((px (mirror 200 (Pt 100 50))
                    + px (mirror 200 (Pt 100 50))) / 2) = false)
    by (apply Rltb_false; cbn [px mirror]; lra).
  rewrite Eb, Eb'. cbn [canonical].
  rewrite (features_of_rows_lookup false tie_pose
             (Pt 100 0) (Pt 100 50) (Pt 100 50) (Pt 0 150) (Pt 0 150)
             eq_refl eq_refl eq_refl eq_refl eq_refl).
  rewrite (features_of_rows_lookup false (map (mirror 200) tie_pose)
             (mirror 200 (Pt 100 0)) (mirror 200 (Pt 100 50))
             (mirror 200 (Pt 100 50)) (mirror 200 (Pt 0 150))
             (mirror 200 (Pt 0 150))
             eq_refl eq_refl eq_refl eq_refl eq_refl).
  cbn [of_option].
  eexists; eexists; eexists; eexists.
  split; [reflexivity|]. split; [reflexivity|].
  destruct (features_of_rows_fields false
              (Pt 100 0) (Pt 100 50) (Pt 100 50) (Pt 0 150) (Pt 0 150))
    as (Ff & Fh & Fn & Fc & Fp & F1 & F2 & F3 & F4 & Fl & _).
  destruct (features_of_rows_fields false
              (mirror 200 (Pt 100 0)) (mirror 200 (Pt 100 50))
              (mirror 200 (Pt 100 50)) (mirror 200 (Pt 0 150))
              (mirror 200 (Pt 0 150)))
    as (Gf & Gh & Gn & Gc & Gp & G1 & G2 & G3 & G4 & Gl & _).
  set (f := features_of_rows false
              (Pt 100 0) (Pt 100 50) (Pt 100 50) (Pt 0 150) (Pt 0 150)) in *.
  set (g := features_of_rows false
              (mirror 200 (Pt 100 0)) (mirror 200 (Pt 100 50))
              (mirror 200 (Pt 100 50)) (mirror 200 (Pt 0 150))
              (mirror 200 (Pt 0 150))) in *.
  assert (T1 : theta1 f = 90).
  { rewrite F1, Fh, Fn. apply angle_between_vertical; cbn [midpoint px py]; lra. }
  assert (T2 : theta2 f = 45).
  { rewrite F2, Fn, Fc. apply angle_between_diag_right; cbn [midpoint px py]; lra. }
  assert (T3 : theta3 f = 45).
  { rewrite F3, Fc, Fp. apply angle_between_diag_right; cbn [midpoint px py]; lra. }
  assert (U1 : theta1 g = 90).
  { rewrite G1, Gh, Gn.
    apply angle_between_vertical; cbn [midpoint mirror px py]; lra. }
  assert (U2 : theta2 g = 135).
  { rewrite G2, Gn, Gc.
    apply angle_between_diag_left; cbn [midpoint mirror px py]; lra. }
  assert (U3 : theta3 g = 135).
  { rewrite G3, Gc, Gp.
    apply angle_between_diag_left; cbn [midpoint mirror px py]; lra. }
  assert (Cf : classify_posture 90 45 45 (0.6 * 90 + 0.2 * 45 + 0.2 * 45)
               = ("Good Posture"%string, (0, 255, 0)%Z)).
  { apply classify_posture_cases. split; intros [? ?]; lra. }
  assert (Cg : classify_posture 90 135 135 (0.6 * 90 + 0.2 * 135 + 0.2 * 135)
               = ("L-Posture"%string, (0, 165, 255)%Z)).
  { apply classify_posture_cases. split; lra. }
  rewrite Fl, Gl, F4, G4, T1, T2, T3, U1, U2, U3, Cf, Cg. cbn [fst snd].
  tauto.
Qed.

(** ** The frame buffers *)

Section FrameProps.

Variable detect_for_video : image -> Z -> list (list landmark).
Variable rasterize : draw_cmd -> image -> image.

(** A sequence of drawing calls on the frame at [out] changes that frame
    and no other object. *)
Lemma draw_all_run (out : loc) (cmds : list draw_cmd) :
  forall (im : image) (s : heap),
    s !! out = Some (Img im) ->
    for_each cmds (cv2_draw rasterize out) s
    = (Ok tt, <[out := Img (paint rasterize cmds im)]> s).
Proof.
  induction cmds as [|c cmds IH]; intros im s H.
  - cbn. unfold ret. f_equal. symmetry. now apply list_insert_id.
  - cbn [for_each]. rewrite bind_run. unfold cv2_draw at 1.
    rewrite bind_run, (read_image_run s out im H). unfold write.
    assert (H1 : <[out := Img (rasterize c im)]> s !! out
                 = Some (Img (rasterize c im))).
    { apply list_lookup_insert_eq. eapply lookup_lt_Some; eauto. }
    rewrite (IH _ _ H1), list_insert_insert_eq. reflexivity.
Qed.

(** [process_frame] as a function of the input frame and the detector's
    answer: the result, and the store, which grows by the output frame,
    [lms_px] and [math_lms] and is otherwise unchanged. *)
Lemma process_frame_run (frame_bgr : loc) (timestamp_ms : Z) (im : image)
    (s : heap) :
  s !! frame_bgr = Some (Img im) ->
  process_frame detect_for_video rasterize frame_bgr timestamp_ms s
  = match detect_for_video (cvtColor_BGR2RGB im) timestamp_ms with
    | [] => (Ok (length s), s ++ [Img im])
    | lm :: _ =>
        let w := INR (cols im) in
        let a := to_pixels w (INR (rows im)) lm in
        match facing_left a with
        | None => (Raise IndexError, s ++ [Img im; Arr a])
        | Some b =>
            match features_of b (canonical w b a) with
            | None =>
                (Raise IndexError,
                 s ++ [Img im; Arr a; Arr (canonical w b a)])
            | Some f =>
                (Ok (length s),
                 s ++ [Img (paint rasterize (overlay w f) im); Arr a;
                       Arr (canonical w b a)])
            end
        end
    end.
Proof.
  intros H. unfold process_frame.
  rewrite bind_run, (read_image_run s _ im H). cbv zeta.
  rewrite bind_run, (copy_image_run s _ im H).
  destruct (detect_for_video (cvtColor_BGR2RGB im) timestamp_ms) as [|lm rest];
    [reflexivity|].
  set (w := INR (cols im)). set (a := to_pixels w (INR (rows im)) lm).
  rewrite bind_run. unfold new at 1.
  rewrite bind_run.
  rewrite (analyse_pose_run w _ a _ (list_lookup_middle (s ++ [Img im]) [] (Arr a) _ eq_refl)).
  rewrite <- !app_assoc. cbn [app].
  destruct (facing_left a) as [b|]; [|reflexivity].
  rewrite <- !app_assoc. cbn [app].
  destruct (features_of b (canonical w b a)) as [f|]; [|reflexivity].
  cbn [of_option]. rewrite bind_run.
  rewrite (draw_all_run (length s) (overlay w f) im)
    by now apply list_lookup_middle.
  rewrite insert_app_r_alt by lia. rewrite Nat.sub_diag. reflexivity.
Qed.

Lemma lookup_new (s k : heap) (i : nat) :
  (s ++ k) !! (length s + i)%nat = k !! i.
Proof.
  rewrite lookup_app_r by lia. f_equal. lia.
Qed.

Lemma facing_left_is_Some (a : list point) :
  (12 < length a)%nat -> is_Some (facing_left a).
Proof.
  intros Hlen. unfold facing_left.
  destruct (lookup_lt_is_Some_2 a 0%nat ltac:(lia)) as [nose ->].
  destruct (lookup_lt_is_Some_2 a 11%nat ltac:(lia)) as [l_sh ->].
  destruct (lookup_lt_is_Some_2 a 12%nat ltac:(lia)) as [r_sh ->].
  cbn [mbind option_bind]. eauto.
Qed.

Lemma length_canonical (w : R) (b : bool) (a : list point) :
  length (canonical w b a) = length a.
Proof. destruct b; cbn [canonical]; [apply length_map|reflexivity]. Qed.

(** C7. When the detector finds no pose, [process_frame] returns a new
    frame with the contents of the input frame, nothing drawn on it.
    When it finds a pose, with the rows the code reads, [process_frame]
    returns a new frame on which the ten drawing calls of the overlay
    have been made, in order. *)
Theorem process_frame_no_landmarks (frame_bgr : loc) (timestamp_ms : Z)
    (im : image) (s : heap) :
  s !! frame_bgr = Some (Img im) ->
  (detect_for_video (cvtColor_BGR2RGB im) timestamp_ms = [] ->
   exists (out : loc) (s' : heap),
     process_frame detect_for_video rasterize frame_bgr timestamp_ms s
     = (Ok out, s')
     /\ s' !! out = Some (Img im)
     /\ out <> frame_bgr)
  /\ (forall (lm : list landmark) (rest : list (list landmark)),
        detect_for_video (cvtColor_BGR2RGB im) timestamp_ms = lm :: rest ->
        (24 < length lm)%nat ->
        exists (out : loc) (s' : heap) (b : bool) (f : features),
          process_frame detect_for_video rasterize frame_bgr timestamp_ms s
          = (Ok out, s')
          /\ facing_left (to_pixels (INR (cols im)) (INR (rows im)) lm)
             = Some b
          /\ features_of b
               (canonical (INR (cols im)) b
                  (to_pixels (INR (cols im)) (INR (rows im)) lm))
             = Some f
          /\ s' !! out
             = Some (Img (paint rasterize (overlay (INR (cols im)) f) im))
          /\ length (overlay (INR (cols im)) f) = 10%nat
          /\ out <> frame_bgr).
Proof.
  intros H. pose proof (lookup_lt_Some _ _ _ H) as Hlt.
  rewrite (process_frame_run frame_bgr timestamp_ms im s H). split.
  - intros ->. exists (length s), (s ++ [Img im]).
    split; [reflexivity|]. split; [now apply list_lookup_middle|lia].
  - intros lm rest -> Hlen. cbv zeta.
    set (w := INR (cols im)). set (a := to_pixels w (INR (rows im)) lm).
    assert (Ha : length a = length lm) by apply length_map.
    destruct (facing_left_is_Some a ltac:(lia)) as [b Hb].
    destruct (features_of_is_Some b (canonical w b a)) as [f Hf].
    { rewrite length_canonical. lia. }
    rewrite Hb, Hf. eexists; eexists; exists b, f.
    split; [reflexivity|]. split; [reflexivity|]. split; [exact Hf|].
    split; [now apply list_lookup_middle|]. split; [reflexivity|lia].
Qed.

(** C10. [process_frame] changes no object of the store it is called on:
    the input frame keeps its contents, the frame that is returned is a
    new object, the pixel landmark array [lms_px] is a new object that
    holds the un-mirrored pixel landmarks when the call ends, and the
    canonical, possibly mirrored, array is another new object. *)
Theorem process_frame_preserves_inputs (frame_bgr : loc) (timestamp_ms : Z)
    (im : image) (s : heap) :
  s !! frame_bgr = Some (Img im) ->
  s `prefix_of`
    snd (process_frame detect_for_video rasterize frame_bgr timestamp_ms s)
  /\ snd (process_frame detect_for_video rasterize frame_bgr timestamp_ms s)
       !! frame_bgr = Some (Img im)
  /\ (forall out : loc,
        fst (process_frame detect_for_video rasterize frame_bgr
               timestamp_ms s) = Ok out ->
        out = length s /\ s !! out = None)
  /\ (forall (lm : list landmark) (rest : list (list landmark)),
        detect_for_video (cvtColor_BGR2RGB im) timestamp_ms = lm :: rest ->
        snd (process_frame detect_for_video rasterize frame_bgr
               timestamp_ms s) !! S (length s)
        = Some (Arr (to_pixels (INR (cols im)) (INR (rows im)) lm))
        /\ (forall b : bool,
              facing_left (to_pixels (INR (cols im)) (INR (rows im)) lm)
              = Some b ->
              snd (process_frame detect_for_video rasterize frame_bgr
                     timestamp_ms s) !! S (S (length s))
              = Some (Arr (canonical (INR (cols im)) b
                             (to_pixels (INR (cols im)) (INR (rows im))
                                lm))))).
Proof.
  intros H. pose proof (lookup_lt_Some _ _ _ H) as Hlt.
  rewrite (process_frame_run frame_bgr timestamp_ms im s H).
  assert (Hfresh : s !! length s = None) by (apply lookup_ge_None_2; lia).
  destruct (detect_for_video (cvtColor_BGR2RGB im) timestamp_ms)
    as [|lm0 rest0].
  { cbn [fst snd]. repeat split.
    - now exists [Img im].
    - now apply lookup_app_l_Some.
    - congruence.
    - congruence.
    - discriminate.
    - discriminate. }
  cbv zeta.
  set (w := INR (cols im)). set (a := to_pixels w (INR (rows im)) lm0).
  destruct (facing_left a) as [b|] eqn:Hb;
    [destruct (features_of b (canonical w b a)) as [f|]|];
    cbn [fst snd];
    (split; [eexists; reflexivity|];
     split; [now apply lookup_app_l_Some|];
     split; [intros out Hout; try discriminate; split; congruence|];
     intros lm rest Hlm; injection Hlm as <- <-).
  all: split.
  all: try (replace (S (length s)) with (length s + 1)%nat by lia;
            rewrite lookup_new; reflexivity).
  all: intros b' Hb'; fold a in Hb' |- *; rewrite Hb in Hb'.
  all: first [ discriminate Hb' | injection Hb' as <- ].
  all: replace (S (S (length s))) with (length s + 2)%nat by lia.
  all: rewrite lookup_new; reflexivity.
Qed.

End FrameProps.

Lemma process_frame_no_landmarks_witness :
  (exists (out : loc) (s' : heap),
     process_frame no_pose blackout 0%nat 0%Z [Img small_frame] = (Ok out, s')
     /\ s' !! out = Some (Img small_frame)
     /\ out <> 0%nat)
  /\ (exists (out : loc) (s' : heap) (b : bool) (f : features),
        process_frame one_pose blackout 0%nat 0%Z [Img small_frame]
        = (Ok out, s')
        /\ facing_left
             (to_pixels (INR (cols small_frame)) (INR (rows small_frame))
                upright_landmarks) = Some b
        /\ features_of b
             (canonical (INR (cols small_frame)) b
                (to_pixels (INR (cols small_frame)) (INR (rows small_frame))
                   upright_landmarks)) = Some f
        /\ s' !! out
           = Some (Img (paint blackout (overlay (INR (cols small_frame)) f)
                          small_frame))
        /\ length (overlay (INR (cols small_frame)) f) = 10%nat
        /\ out <> 0%nat).
Proof.
  split.
  - exact (proj1 (process_frame_no_landmarks no_pose blackout 0%nat 0%Z
                    small_frame [Img small_frame] eq_refl) eq_refl).
  - apply (proj2 (process_frame_no_landmarks one_pose blackout 0%nat 0%Z
                    small_frame [Img small_frame] eq_refl)
             upright_landmarks [] eq_refl).
    change (24 < 33)%nat. lia.
Defined.

Lemma process_frame_preserves_inputs_witness :
  [Img small_frame] `prefix_of`
    snd (process_frame one_pose blackout 0%nat 0%Z [Img small_frame])
  /\ snd (process_frame one_pose blackout 0%nat 0%Z [Img small_frame])
       !! 0%nat = Some (Img small_frame).
Proof.
  pose proof (process_frame_preserves_inputs one_pose blackout 0%nat 0%Z
                small_frame [Img small_frame] eq_refl) as (H1 & H2 & _).
  split; assumption.
Defined.

(** ** Sanity checks on concrete inputs *)

Example py_str_examples :
  py_str 90 = "90"%string /\ py_str 0 = "0"%string /\ py_str (-7) = "-7"%string.
Proof. repeat split. Qed.

Example swap_rb_example :
  swap_rb [Byte.x01; Byte.x02; Byte.x03; Byte.x04; Byte.x05; Byte.x06]
  = [Byte.x03; Byte.x02; Byte.x01; Byte.x06; Byte.x05; Byte.x04].
Proof. reflexivity. Qed.

Example pose_of_length : length upright_pose = 33%nat.
Proof. reflexivity. Qed.

Example py_int_examples : py_int 2 = 2%Z /\ py_int (Ropp 2) = (-2)%Z.
Proof.
  assert (I2 : Int_part 2 = 2%Z).
  { symmetry. apply Int_part_spec. simpl. lra. }
  unfold py_int. split.
  - replace (Rleb 0 2) with true by (symmetry; apply Rleb_true; lra).
    exact I2.
  - replace (Rleb 0 (Ropp 2)) with false by (symmetry; apply Rleb_false; lra).
    rewrite Ropp_involutive, I2. reflexivity.
Qed.

(* ===================================================================== *)
(** * Further properties of the code *)
(* ===================================================================== *)

(** ** The angle of a vector *)

Ltac atan2_split y x E :=
  let Hx := fresh "Hx" in
  let Hy := fresh "Hy" in
  destruct (atan2_cases y x)
    as [(Hx & E)|[(Hx & Hy & E)|[(Hx & Hy & E)|[(Hx & Hy & E)
       |[(Hx & Hy & E)|(Hx & Hy & E)]]]]].

(** From the signs of [x] and [y], the sign of [atan (y / x)]. *)
Ltac atan_sign y x :=
  let Hp := fresh "Hp" in
  let Hn := fresh "Hn" in
  let Hz := fresh "Hz" in
  let Hs := fresh "Hs" in
  let Hyx := fresh "Hyx" in
  try (destruct (atan_div_sign y x ltac:(lra)) as (Hp & Hn & Hz);
       destruct (Rtotal_order y 0) as [Hs|[Hs|Hs]];
       [ try (assert (Hyx : 0 < y * x) by nra; specialize (Hp Hyx));
         try (assert (Hyx : y * x < 0) by nra; specialize (Hn Hyx))
       | specialize (Hz Hs); try rewrite Hz
       | try (assert (Hyx : 0 < y * x) by nra; specialize (Hp Hyx));
         try (assert (Hyx : y * x < 0) by nra; specialize (Hn Hyx)) ]).

(** The magnitude of an [atan2] result against a right angle, by the sign
    of [x]. *)
Lemma Rabs_atan2_side (y x : R) :
  (0 < x -> Rabs (atan2 y x) < PI / 2)
  /\ (x < 0 -> PI / 2 < Rabs (atan2 y x)).
Proof.
  pose proof PI_RGT_0 as Hpi.
  split; intros Hsign; atan2_split y x E; try (exfalso; lra); rewrite E.
  - pose proof (atan_bound (y / x)) as Hb. revert Hb. abs_cases.
  - atan_sign y x; abs_cases.
  - atan_sign y x; abs_cases.
Qed.

Lemma angle_between_le_90 (p1 p2 : point) :
  px p2 < px p1 -> angle_between p1 p2 <= 90.
Proof.
  intros H. destruct degrees_scale as [Hk _]. pose proof PI_RGT_0 as Hpos.
  assert (Hhalf : PI / 2 * (180 / PI) = 90) by (field; lra).
  rewrite angle_between_eq, <- Hhalf.
  apply Rmult_le_compat_r; [lra|]. apply Rlt_le, Rabs_atan2_side. lra.
Qed.

Lemma angle_between_ge_90 (p1 p2 : point) :
  px p1 < px p2 -> 90 <= angle_between p1 p2.
Proof.
  intros H. destruct degrees_scale as [Hk _]. pose proof PI_RGT_0 as Hpos.
  assert (Hhalf : PI / 2 * (180 / PI) = 90) by (field; lra).
  rewrite angle_between_eq, <- Hhalf.
  apply Rmult_le_compat_r; [lra|]. apply Rlt_le, Rabs_atan2_side. lra.
Qed.

(** [angle_between p1 p2] is at most 90 when [p1] is right of [p2], 90
    when [p1] is straight above or below [p2], and at least 90 when [p1]
    is left of [p2]. *)
Theorem angle_between_side (p1 p2 : point) :
  (px p2 < px p1 -> angle_between p1 p2 <= 90)
  /\ (px p1 = px p2 -> py p1 <> py p2 -> angle_between p1 p2 = 90)
  /\ (px p1 < px p2 -> 90 <= angle_between p1 p2).
Proof.
  split; [apply angle_between_le_90|].
  split; [apply angle_between_vertical|apply angle_between_ge_90].
Qed.

Lemma angle_between_side_witness :
  angle_between (Pt 120 0) (Pt 100 50) <= 90
  /\ angle_between (Pt 100 0) (Pt 100 50) = 90
  /\ 90 <= angle_between (Pt 80 0) (Pt 100 50).
Proof.
  split; [|split].
  - apply (proj1 (angle_between_side (Pt 120 0) (Pt 100 50))). cbn [px]. lra.
  - apply (proj1 (proj2 (angle_between_side (Pt 100 0) (Pt 100 50))));
      cbn [px py]; lra.
  - apply (proj2 (proj2 (angle_between_side (Pt 80 0) (Pt 100 50)))).
    cbn [px]. lra.
Defined.

(** C4, as the code has it.  [angle_between] is symmetric on two points
    with the same x and different y, where it is 90 both ways.  It is not
    symmetric in general: on two points with the same y and different x it
    is 0 from the right point to the left one and 180 from the left point
    to the right one, and whenever [p1] is right of [p2] it is at most 90
    from [p1] to [p2] and at least 90 from [p2] to [p1]. *)
Theorem angle_between_swap_aligned (p1 p2 : point) :
  (px p1 = px p2 -> py p1 <> py p2 ->
   angle_between p1 p2 = 90 /\ angle_between p2 p1 = 90)
  /\ (py p1 = py p2 -> px p2 < px p1 ->
      angle_between p1 p2 = 0 /\ angle_between p2 p1 = 180)
  /\ (px p2 < px p1 ->
      angle_between p1 p2 <= 90 /\ 90 <= angle_between p2 p1).
Proof.
  split; [|split].
  - intros Hx Hy. split; apply angle_between_vertical; auto.
  - intros Hy Hx. split.
    + now apply angle_between_right.
    + apply angle_between_left; auto.
  - intros Hx. split.
    + now apply angle_between_le_90.
    + now apply angle_between_ge_90.
Qed.

Lemma angle_between_swap_aligned_witness :
  (angle_between (Pt 100 0) (Pt 100 50) = 90
   /\ angle_between (Pt 100 50) (Pt 100 0) = 90)
  /\ (angle_between (Pt 1 0) (Pt 0 0) = 0
      /\ angle_between (Pt 0 0) (Pt 1 0) = 180)
  /\ (angle_between (Pt 120 0) (Pt 100 50) <= 90
      /\ 90 <= angle_between (Pt 100 50) (Pt 120 0)).
Proof.
  split; [|split].
  - apply (proj1 (angle_between_swap_aligned (Pt 100 0) (Pt 100 50)));
      cbn [px py]; lra.
  - apply (proj1 (proj2 (angle_between_swap_aligned (Pt 1 0) (Pt 0 0))));
      cbn [px py]; lra.
  - apply (proj2 (proj2 (angle_between_swap_aligned (Pt 120 0) (Pt 100 50)))).
    cbn [px]. lra.
Defined.

(** ** The angles of a pose *)

Lemma angle_between_bounds (p1 p2 : point) : 0 <= angle_between p1 p2 <= 180.
Proof.
  rewrite angle_between_eq, <- Rabs_degrees.
  apply Rabs_degrees_atan2_bound.
Qed.

(** [int(x)] of a float between 0 and an integer bound. *)
Lemma py_int_bounds (x : R) (n : Z) :
  0 <= x <= IZR n -> (0 <= py_int x <= n)%Z.
Proof.
  intros [H0 Hn]. unfold py_int.
  replace (Rleb 0 x) with true by (symmetry; apply Rleb_true; lra).
  destruct (base_Int_part x) as [Hle Hgt]. split.
  - assert (IZR (-1) < IZR (Int_part x)) by (simpl; lra).
    apply lt_IZR in H. lia.
  - apply le_IZR. lra.
Qed.

(** What a successful run of the feature extractor read. *)
Lemma extract_features_inv (b : bool) (l : loc) (m : list point)
    (s s' : heap) (f : features) :
  s !! l = Some (Arr m) ->
  extract_features b l s = (Ok f, s') ->
  exists hd a11 a12 a23 a24 : point,
    m !! 0%nat = Some hd /\ m !! 11%nat = Some a11 /\ m !! 12%nat = Some a12
    /\ m !! 23%nat = Some a23 /\ m !! 24%nat = Some a24
    /\ f = features_of_rows b hd a11 a12 a23 a24 /\ s' = s.
Proof.
  intros H Hrun. rewrite (extract_features_run b l m s H) in Hrun.
  unfold features_of in Hrun.
  destruct (m !! 0%nat) as [hd|]; [|discriminate].
  destruct (m !! 11%nat) as [a11|]; [|discriminate].
  destruct (m !! 12%nat) as [a12|]; [|discriminate].
  destruct (m !! 23%nat) as [a23|]; [|discriminate].
  destruct (m !! 24%nat) as [a24|]; [|discriminate].
  cbn [mbind option_bind of_option] in Hrun.
  injection Hrun as <- <-. exists hd, a11, a12, a23, a24. repeat split.
Qed.

Lemma extract_features_ok (b : bool) (l : loc) (m : list point) (s : heap)
    (hd a11 a12 a23 a24 : point) :
  s !! l = Some (Arr m) ->
  m !! 0%nat = Some hd -> m !! 11%nat = Some a11 -> m !! 12%nat = Some a12 ->
  m !! 23%nat = Some a23 -> m !! 24%nat = Some a24 ->
  extract_features b l s = (Ok (features_of_rows b hd a11 a12 a23 a24), s).
Proof.
  intros H E0 E11 E12 E23 E24. rewrite (extract_features_run b l m s H).
  now rewrite (features_of_rows_lookup b m _ _ _ _ _ E0 E11 E12 E23 E24).
Qed.

(** The four angles of a pose lie in [0, 180], and so do the whole numbers
    that the debug line prints for them. *)
Theorem features_angle_ranges (b : bool) (l : loc) (m : list point)
    (s s' : heap) (f : features) :
  s !! l = Some (Arr m) ->
  extract_features b l s = (Ok f, s') ->
  (0 <= theta1 f <= 180 /\ 0 <= theta2 f <= 180
   /\ 0 <= theta3 f <= 180 /\ 0 <= theta4 f <= 180)
  /\ (0 <= py_int (theta1 f) <= 180 /\ 0 <= py_int (theta2 f) <= 180
      /\ 0 <= py_int (theta3 f) <= 180 /\ 0 <= py_int (theta4 f) <= 180)%Z.
Proof.
  intros H Hrun.
  destruct (extract_features_inv b l m s s' f H Hrun)
    as (hd & a11 & a12 & a23 & a24 & _ & _ & _ & _ & _ & -> & _).
  destruct (features_of_rows_fields b hd a11 a12 a23 a24)
    as (_ & _ & _ & _ & _ & F1 & F2 & F3 & F4 & _).
  set (f := features_of_rows b hd a11 a12 a23 a24) in *.
  assert (B1 : 0 <= theta1 f <= 180)
    by (rewrite F1; apply angle_between_bounds).
  assert (B2 : 0 <= theta2 f <= 180)
    by (rewrite F2; apply angle_between_bounds).
  assert (B3 : 0 <= theta3 f <= 180)
    by (rewrite F3; apply angle_between_bounds).
  assert (B4 : 0 <= theta4 f <= 180) by (rewrite F4; lra).
  split; [tauto|].
  split; [|split; [|split]]; apply py_int_bounds; assumption.
Qed.

Lemma features_angle_ranges_witness :
  exists f : features,
    extract_features false 0%nat [Arr leaning_pose] = (Ok f, [Arr leaning_pose])
    /\ 0 <= theta4 f <= 180
    /\ (0 <= py_int (theta4 f) <= 180)%Z.
Proof.
  pose proof (extract_features_ok false 0%nat leaning_pose [Arr leaning_pose]
                (Pt 120 0) (Pt 100 50) (Pt 100 50) (Pt 0 150) (Pt 0 150)
                eq_refl eq_refl eq_refl eq_refl eq_refl eq_refl) as Hrun.
  eexists. split; [exact Hrun|].
  destruct (features_angle_ranges false 0%nat leaning_pose [Arr leaning_pose]
              [Arr leaning_pose] _ eq_refl Hrun)
    as ((_ & _ & _ & B4) & (_ & _ & _ & I4)).
  split; assumption.
Defined.

(** ** The orientation normalizer *)

Lemma lookup_canonical (w : R) (b : bool) (a : list point) (i : nat)
    (p : point) :
  a !! i = Some p ->
  canonical w b a !! i = Some (if b then Pt (w - px p) (py p) else p).
Proof.
  intros E. destruct b; cbn [canonical]; [|exact E].
  now apply lookup_mirror.
Qed.

(** On an array with the rows it reads, the orientation normalizer
    returns a new array and leaves every object of the store as it was;
    the subject is taken as facing left exactly when the nose is strictly
    left of the middle of the shoulders; the new array has as many rows as
    [lms_px], each row equal to the row of [lms_px], or, when facing left,
    with [x] replaced by [w - x] and [y] kept. *)
Theorem normalize_orientation_spec (w : R) (l : loc) (a : list point)
    (s : heap) :
  s !! l = Some (Arr a) ->
  (12 < length a)%nat ->
  exists (b : bool) (m : list point) (nose l_sh r_sh : point),
    normalize_orientation w l s = (Ok (b, length s), s ++ [Arr m])
    /\ a !! 0%nat = Some nose /\ a !! 11%nat = Some l_sh
    /\ a !! 12%nat = Some r_sh
    /\ (b = true <-> px nose < (px l_sh + px r_sh) / 2)
    /\ length m = length a
    /\ (forall (i : nat) (p : point),
          a !! i = Some p ->
          m !! i = Some (if b then Pt (w - px p) (py p) else p)).
Proof.
  intros H Hlen.
  destruct (lookup_lt_is_Some_2 a 0%nat ltac:(lia)) as [nose E0].
  destruct (lookup_lt_is_Some_2 a 11%nat ltac:(lia)) as [l_sh E11].
  destruct (lookup_lt_is_Some_2 a 12%nat ltac:(lia)) as [r_sh E12].
  exists (Rltb (px nose) ((px l_sh + px r_sh) / 2)),
         (canonical w (Rltb (px nose) ((px l_sh + px r_sh) / 2)) a),
         nose, l_sh, r_sh.
  rewrite (normalize_orientation_run w l a s H).
  rewrite (facing_left_lookup a _ _ _ E0 E11 E12).
  split; [reflexivity|]. repeat (split; [assumption|]).
  split; [apply Rltb_true|].
  split; [apply length_canonical|].
  intros i p. apply lookup_canonical.
Qed.

Lemma normalize_orientation_spec_witness :
  exists (b : bool) (m : list point) (nose l_sh r_sh : point),
    normalize_orientation 200 0%nat [Arr leaning_pose]
    = (Ok (b, 1%nat), [Arr leaning_pose] ++ [Arr m])
    /\ leaning_pose !! 0%nat = Some nose /\ leaning_pose !! 11%nat = Some l_sh
    /\ leaning_pose !! 12%nat = Some r_sh
    /\ (b = true <-> px nose < (px l_sh + px r_sh) / 2)
    /\ length m = length leaning_pose
    /\ (forall (i : nat) (p : point),
          leaning_pose !! i = Some p ->
          m !! i = Some (if b then Pt (200 - px p) (py p) else p)).
Proof.
  apply (normalize_orientation_spec 200 0%nat leaning_pose [Arr leaning_pose]
           eq_refl).
  change (12 < 33)%nat. lia.
Defined.

(** ** Error behaviour of [process_frame] *)

Lemma features_of_short (b : bool) (m : list point) :
  (length m <= 24)%nat -> features_of b m = None.
Proof.
  intros Hlen. unfold features_of.
  destruct (m !! 0%nat); [|reflexivity].
  destruct (m !! 11%nat); [|reflexivity].
  destruct (m !! 12%nat); [|reflexivity].
  destruct (m !! 23%nat); [|reflexivity].
  rewrite (lookup_ge_None_2 m 24%nat) by lia. reflexivity.
Qed.

Section FrameEdges.

Variable detect_for_video : detector.
Variable rasterize : draw_cmd -> image -> image.

(** When the first pose of the detector's answer has fewer than 25
    landmarks, [process_frame] raises [IndexError] before anything is
    drawn: the copy of the frame still has the contents of the input, and
    no object of the store it was called on has changed. *)
Theorem process_frame_short_pose (frame_bgr : loc) (timestamp_ms : Z)
    (im : image) (s : heap) (lm : list landmark)
    (rest : list (list landmark)) :
  s !! frame_bgr = Some (Img im) ->
  detect_for_video (cvtColor_BGR2RGB im) timestamp_ms = lm :: rest ->
  (length lm <= 24)%nat ->
  exists s' : heap,
    process_frame detect_for_video rasterize frame_bgr timestamp_ms s
    = (Raise IndexError, s')
    /\ s `prefix_of` s'
    /\ s' !! length s = Some (Img im).
Proof.
  intros H Hdet Hlen.
  rewrite (process_frame_run detect_for_video rasterize _ _ im s H), Hdet.
  cbv zeta.
  set (w := INR (cols im)). set (a := to_pixels w (INR (rows im)) lm).
  assert (Ha : length a = length lm) by apply length_map.
  destruct (facing_left a) as [b|].
  - rewrite features_of_short by (rewrite length_canonical; lia).
    eexists. split; [reflexivity|]. split; [eexists; reflexivity|].
    now apply list_lookup_middle.
  - eexists. split; [reflexivity|]. split; [eexists; reflexivity|].
    now apply list_lookup_middle.
Qed.

(** Reading a frame into the store, processing it and reading the result
    gives [rendered], whatever else the store holds, and changes no object
    of the store. *)
Lemma show_frame_run (im : image) (ts : Z) (s : heap) :
  exists s' : heap,
    (frame <- new (Img im) ;;
     out_img <- process_frame detect_for_video rasterize frame ts ;;
     read_image out_img) s
    = (rendered detect_for_video rasterize im ts, s')
    /\ s `prefix_of` s'.
Proof.
  rewrite bind_run. unfold new at 1. rewrite bind_run.
  rewrite (process_frame_run detect_for_video rasterize _ _ im (s ++ [Img im]))
    by now apply list_lookup_middle.
  unfold rendered.
  destruct (detect_for_video (cvtColor_BGR2RGB im) ts) as [|lm rest].
  - rewrite (read_image_run _ _ im) by now apply list_lookup_middle.
    eexists. split; [reflexivity|]. rewrite <- app_assoc. now eexists.
  - cbv zeta.
    destruct (facing_left _) as [b|];
      [destruct (features_of b _) as [f|]|].
    + rewrite (read_image_run _ _ (paint rasterize (overlay (INR (cols im)) f) im))
        by now apply list_lookup_middle.
      eexists. split; [reflexivity|]. rewrite <- app_assoc. now eexists.
    + eexists. split; [reflexivity|]. rewrite <- app_assoc. now eexists.
    + eexists. split; [reflexivity|]. rewrite <- app_assoc. now eexists.
Qed.

End FrameEdges.

Lemma process_frame_short_pose_witness :
  exists s' : heap,
    process_frame empty_pose blackout 0%nat 0%Z [Img small_frame]
    = (Raise IndexError, s')
    /\ [Img small_frame] `prefix_of` s'
    /\ s' !! 1%nat = Some (Img small_frame).
Proof.
  apply (process_frame_short_pose empty_pose blackout 0%nat 0%Z small_frame
           [Img small_frame] [] [] eq_refl eq_refl).
  cbn [length]. lia.
Defined.

(** ** The camera loop *)

Lemma Reqb_true (x y : R) : Reqb x y = true <-> x = y.
Proof.
  unfold Reqb. destruct (Req_dec_T x y); split; intros; auto; discriminate.
Qed.

Lemma quits_iff (t : tick) :
  quits t = true <-> ((key t mod 256 = 113)%Z \/ visible t = 0).
Proof.
  assert (Hland : Z.land (key t) 0xFF = (key t mod 256)%Z)
    by (change 0xFF%Z with (Z.ones 8); apply Z.land_ones; lia).
  assert (Hord : ord "q" = 113%Z) by reflexivity.
  unfold quits. rewrite Hland, Hord, orb_true_iff, Z.eqb_eq, Reqb_true.
  reflexivity.
Qed.

(** The loop ends after a frame exactly when the low byte of the key code
    is the code of q, or the window is reported as not visible; the code
    -1 of "no key" does not end it, a q with higher bits set does. *)
Theorem quits_spec (t : tick) :
  (quits t = true <-> ((key t mod 256 = 113)%Z \/ visible t = 0))
  /\ (key t = (-1)%Z -> visible t <> 0 -> quits t = false)
  /\ (forall n : Z, key t = (113 + 256 * n)%Z -> quits t = true).
Proof.
  pose proof (quits_iff t) as Hiff.
  split; [exact Hiff|]. split.
  - intros Hk Hv. apply not_true_is_false. intros E.
    apply Hiff in E. rewrite Hk in E. destruct E as [E|E].
    + discriminate E.
    + contradiction.
  - intros n Hk. apply Hiff. left. rewrite Hk.
    replace (113 + 256 * n)%Z with (113 + n * 256)%Z by lia.
    rewrite Z_mod_plus_full. reflexivity.
Qed.

Section CameraProps.

Variable rasterize : draw_cmd -> image -> image.

(** One iteration on a frame that was read. *)
Lemma main_loop_read (det : detector) (t : tick) (s : heap) (im : image) :
  cam t = Some im ->
  exists s1 : heap,
    s `prefix_of` s1
    /\ forall ticks : list tick,
         main_loop rasterize det (t :: ticks) s
         = match rendered det rasterize im (py_int (now t * 1000)) with
           | Raise e => (Raised e, [], s1)
           | Ok shown =>
               if quits t then (Broke, [Show window_name shown], s1)
               else
                 let '(r, evs, s2) := main_loop rasterize det ticks s1 in
                 (r, Show window_name shown :: evs, s2)
           end.
Proof.
  intros Hcam.
  destruct (show_frame_run det rasterize im (py_int (now t * 1000)) s)
    as (s1 & E & P).
  exists s1. split; [exact P|]. intros ticks.
  cbn [main_loop]. rewrite Hcam. cbv zeta. rewrite E.
  destruct (rendered det rasterize im (py_int (now t * 1000))); [|reflexivity].
  unfold quits.
  destruct (Z.eqb (Z.land (key t) 0xFF) (ord "q")); [reflexivity|].
  destruct (Reqb (visible t) 0); reflexivity.
Qed.

Lemma shows_cons_read (det : detector) (t : tick) (pre : list tick)
    (im shown : image) :
  cam t = Some im ->
  rendered det rasterize im (py_int (now t * 1000)) = Ok shown ->
  shows det rasterize (t :: pre)
  = Show window_name shown :: shows det rasterize pre.
Proof.
  intros Hcam Hr. unfold shows. cbn [omap list_omap]. rewrite Hcam.
  cbn [mbind option_bind]. rewrite Hr. reflexivity.
Qed.

Lemma shows_cons_failed (det : detector) (t : tick) (pre : list tick) :
  cam t = None -> shows det rasterize (t :: pre) = shows det rasterize pre.
Proof.
  intros Hcam. unfold shows. cbn [omap list_omap]. rewrite Hcam. reflexivity.
Qed.

(** The loop over observations after each of which it goes on. *)
Lemma main_loop_goes_on (det : detector) (pre : list tick) :
  forall s : heap,
    Forall (goes_on det rasterize) pre ->
    exists s1 : heap,
      s `prefix_of` s1
      /\ forall rest : list tick,
           main_loop rasterize det (pre ++ rest) s
           = (let '(r, evs, s') := main_loop rasterize det rest s1 in
              (r, shows det rasterize pre ++ evs, s')).
Proof.
  induction pre as [|t pre IH]; intros s Hall.
  - exists s. split; [reflexivity|]. intros rest. cbn [app].
    now destruct (main_loop rasterize det rest s) as [[r evs] s'].
  - apply Forall_cons in Hall as [Ht Hall]. unfold goes_on in Ht.
    destruct (cam t) as [im|] eqn:Hcam.
    + destruct Ht as [[shown Hshown] Hq].
      destruct (main_loop_read det t s im Hcam) as (s1 & P1 & E).
      destruct (IH s1 Hall) as (s2 & P2 & Hrest).
      exists s2. split; [etransitivity; eassumption|].
      intros rest. rewrite <- app_comm_cons, E, Hshown, Hq, Hrest.
      rewrite (shows_cons_read det t pre im shown Hcam Hshown).
      now destruct (main_loop rasterize det rest s2) as [[r evs] s'].
    + destruct (IH s Hall) as (s1 & P1 & Hrest).
      exists s1. split; [exact P1|]. intros rest.
      rewrite <- app_comm_cons. cbn [main_loop]. rewrite Hcam.
      rewrite Hrest, (shows_cons_failed det t pre Hcam). reflexivity.
Qed.

(** Without a model, or without a camera, [main] returns at once: no
    window is shown, the camera is not released, and the only output is the
    error line of the loader. *)
Theorem main_not_started (create_from_options : string -> string + detector)
    (isOpened : bool) (ticks : list tick) (s : heap) :
  (forall e : string,
     create_from_options "pose_landmarker_full.task"%string = inl e ->
     main rasterize create_from_options isOpened ticks s
     = (Returned, [Print ("Error: " ++ e)], s))
  /\ (forall det : detector,
        create_from_options "pose_landmarker_full.task"%string = inr det ->
        isOpened = false ->
        main rasterize create_from_options isOpened ticks s
        = (Returned, [], s)).
Proof.
  split.
  - intros e He. unfold main, init_pose_landmarker. now rewrite He.
  - intros det Hd ->. unfold main, init_pose_landmarker. now rewrite Hd.
Qed.

(** A failed read is skipped: the loop behaves as if the iterations with
    a failed read had not happened; in them nothing is shown, and neither
    the key nor the window is looked at. *)
Theorem main_loop_skips_failed_reads (det : detector) (ticks : list tick) :
  forall s : heap,
    main_loop rasterize det ticks s
    = main_loop rasterize det (filter (fun t => is_Some (cam t)) ticks) s.
Proof.
  induction ticks as [|t ticks IH]; intros s; [reflexivity|].
  destruct (cam t) as [im|] eqn:Hcam.
  - rewrite filter_cons_True by (rewrite Hcam; eauto).
    destruct (main_loop_read det t s im Hcam) as (s1 & _ & E).
    rewrite !E, (IH s1). reflexivity.
  - rewrite filter_cons_False by (rewrite Hcam; apply is_Some_None).
    cbn [main_loop]. rewrite Hcam. apply IH.
Qed.

(** [main] returns at the first frame after which the key q or the closed
    window is seen: that frame is still shown, then the camera is released
    and the windows are closed; what could be observed later plays no
    part.  Before that, one frame is shown for every successful read, and
    no object of the store [main] started with has changed. *)
Theorem main_quits (create_from_options : string -> string + detector)
    (det : detector) (pre post : list tick) (t : tick) (im shown : image)
    (s : heap) :
  create_from_options "pose_landmarker_full.task"%string = inr det ->
  Forall (goes_on det rasterize) pre ->
  cam t = Some im ->
  rendered det rasterize im (py_int (now t * 1000)) = Ok shown ->
  quits t = true ->
  exists s' : heap,
    main rasterize create_from_options true (pre ++ t :: post) s
    = (Returned,
       shows det rasterize pre
       ++ [Show window_name shown; Release; DestroyAllWindows], s')
    /\ s `prefix_of` s'.
Proof.
  intros Hd Hpre Hcam Hshown Hq.
  destruct (main_loop_goes_on det pre s Hpre) as (s1 & P1 & E1).
  destruct (main_loop_read det t s1 im Hcam) as (s2 & P2 & E2).
  exists s2. split; [|etransitivity; eassumption].
  unfold main, init_pose_landmarker. rewrite Hd. cbn [negb].
  rewrite E1, E2, Hshown, Hq. cbn [app]. rewrite <- app_assoc. reflexivity.
Qed.

(** An exception of [process_frame] is not caught: [main] ends with it,
    after the frames shown so far, and the camera is not released nor the
    windows closed. *)
Theorem main_uncaught (create_from_options : string -> string + detector)
    (det : detector) (pre post : list tick) (t : tick) (im : image)
    (e : exn) (s : heap) :
  create_from_options "pose_landmarker_full.task"%string = inr det ->
  Forall (goes_on det rasterize) pre ->
  cam t = Some im ->
  rendered det rasterize im (py_int (now t * 1000)) = Raise e ->
  exists s' : heap,
    main rasterize create_from_options true (pre ++ t :: post) s
    = (Uncaught e, shows det rasterize pre, s')
    /\ (Release ∉ shows det rasterize pre)
    /\ (DestroyAllWindows ∉ shows det rasterize pre).
Proof.
  intros Hd Hpre Hcam Hraise.
  destruct (main_loop_goes_on det pre s Hpre) as (s1 & P1 & E1).
  destruct (main_loop_read det t s1 im Hcam) as (s2 & P2 & E2).
  exists s2. split.
  - unfold main, init_pose_landmarker. rewrite Hd. cbn [negb].
    rewrite E1, E2, Hraise. cbn [app]. now rewrite app_nil_r.
  - assert (Hshow : forall ev, ev ∈ shows det rasterize pre ->
                               exists im', ev = Show window_name im').
    { intros ev Hev. unfold shows in Hev.
      apply list_elem_of_omap in Hev as (t' & _ & Ht').
      destruct (cam t') as [im'|]; [|discriminate]. cbn in Ht'.
      destruct (rendered det rasterize im' _); [|discriminate].
      injection Ht' as <-. eauto. }
    split; intros Hin; apply Hshow in Hin as [im' Him']; discriminate.
Qed.

(** While no exception is raised and neither the key q nor the closed
    window is seen, [main] goes on: it shows one frame for every successful
    read and none for a failed one, each the result of [process_frame] on
    that frame alone. *)
Theorem main_keeps_running (create_from_options : string -> string + detector)
    (det : detector) (ticks : list tick) (s : heap) :
  create_from_options "pose_landmarker_full.task"%string = inr det ->
  Forall (goes_on det rasterize) ticks ->
  exists s' : heap,
    main rasterize create_from_options true ticks s
    = (Running, shows det rasterize ticks, s')
    /\ length (shows det rasterize ticks)
       = length (filter (fun t => is_Some (cam t)) ticks)
    /\ s `prefix_of` s'.
Proof.
  intros Hd Hall.
  destruct (main_loop_goes_on det ticks s Hall) as (s1 & P1 & E1).
  exists s1. split; [|split; [|exact P1]].
  - unfold main, init_pose_landmarker. rewrite Hd. cbn [negb].
    specialize (E1 []). rewrite app_nil_r in E1. rewrite E1.
    cbn [main_loop app]. now rewrite app_nil_r.
  - clear E1 P1. induction Hall as [|t ticks Ht _ IH]; [reflexivity|].
    unfold goes_on in Ht. destruct (cam t) as [im|] eqn:Hcam.
    + destruct Ht as [[shown Hshown] _].
      rewrite (shows_cons_read det t ticks im shown Hcam Hshown).
      rewrite filter_cons_True by (rewrite Hcam; eauto).
      cbn [length]. now rewrite IH.
    + rewrite (shows_cons_failed det t ticks Hcam).
      rewrite filter_cons_False by (rewrite Hcam; apply is_Some_None).
      exact IH.
Qed.

End CameraProps.

(** A pose with all the rows that are read is rendered. *)
Lemma rendered_ok (det : detector) (rasterize : draw_cmd -> image -> image)
    (im : image) (ts : Z) (lm : list landmark) (rest : list (list landmark)) :
  det (cvtColor_BGR2RGB im) ts = lm :: rest ->
  (24 < length lm)%nat ->
  exists shown : image, rendered det rasterize im ts = Ok shown.
Proof.
  intros Hdet Hlen. unfold rendered. rewrite Hdet. cbv zeta.
  set (w := INR (cols im)). set (a := to_pixels w (INR (rows im)) lm).
  assert (Ha : length a = length lm) by apply length_map.
  destruct (facing_left_is_Some a ltac:(lia)) as [b ->].
  destruct (features_of_is_Some b (canonical w b a)) as [f ->];
    [rewrite length_canonical; lia|].
  eauto.
Qed.

Lemma rendered_short (det : detector) (rasterize : draw_cmd -> image -> image)
    (im : image) (ts : Z) (lm : list landmark) (rest : list (list landmark)) :
  det (cvtColor_BGR2RGB im) ts = lm :: rest ->
  (length lm <= 24)%nat ->
  rendered det rasterize im ts = Raise IndexError.
Proof.
  intros Hdet Hlen. unfold rendered. rewrite Hdet. cbv zeta.
  destruct (facing_left _) as [b|]; [|reflexivity].
  rewrite features_of_short; [reflexivity|].
  rewrite length_canonical. unfold to_pixels. rewrite length_map. exact Hlen.
Qed.

Lemma goes_on_failed_read (det : detector)
    (rasterize : draw_cmd -> image -> image) :
  goes_on det rasterize failed_read.
Proof. exact I. Qed.

Lemma goes_on_quiet_read (rasterize : draw_cmd -> image -> image) :
  goes_on one_pose rasterize quiet_read.
Proof.
  unfold goes_on. cbn [cam quiet_read]. split.
  - apply (rendered_ok one_pose rasterize small_frame _ upright_landmarks []
             eq_refl).
    change (24 < 33)%nat. lia.
  - apply not_true_is_false. intros E. apply quits_iff in E.
    cbn [key visible quiet_read] in E. destruct E as [E|E].
    + discriminate E.
    + lra.
Qed.

Lemma quits_q_read : quits q_read = true.
Proof. apply quits_iff. left. reflexivity. Qed.

Lemma quits_spec_witness :
  quits quiet_read = false /\ quits q_read = true.
Proof.
  split.
  - apply (proj1 (proj2 (quits_spec quiet_read))).
    + reflexivity.
    + cbn [visible quiet_read]. lra.
  - apply (proj2 (proj2 (quits_spec q_read)) 0%Z). reflexivity.
Defined.

Lemma main_not_started_witness :
  main blackout no_model true [quiet_read] []
  = (Returned, [Print ("Error: " ++ "no model")], [])
  /\ main blackout upright_model false [quiet_read] [] = (Returned, [], []).
Proof.
  split.
  - apply (proj1 (main_not_started blackout no_model true [quiet_read] [])).
    reflexivity.
  - apply (proj2 (main_not_started blackout upright_model false [quiet_read] [])
             one_pose); reflexivity.
Defined.

Lemma main_quits_witness :
  exists (shown : image) (s' : heap),
    main blackout upright_model true
      ([failed_read; quiet_read] ++ q_read :: [quiet_read]) []
    = (Returned,
       shows one_pose blackout [failed_read; quiet_read]
       ++ [Show window_name shown; Release; DestroyAllWindows], s')
    /\ [] `prefix_of` s'.
Proof.
  destruct (rendered_ok one_pose blackout small_frame
              (py_int (now q_read * 1000)) upright_landmarks [] eq_refl)
    as [shown Hshown]; [change (24 < 33)%nat; lia|].
  exists shown.
  apply (main_quits blackout upright_model one_pose [failed_read; quiet_read]
           [quiet_read] q_read small_frame shown [] eq_refl).
  - constructor; [apply goes_on_failed_read|].
    constructor; [apply goes_on_quiet_read|constructor].
  - reflexivity.
  - exact Hshown.
  - exact quits_q_read.
Defined.

Lemma main_uncaught_witness :
  exists s' : heap,
    main blackout (fun _ => inr empty_pose) true
      ([failed_read] ++ quiet_read :: [q_read]) []
    = (Uncaught IndexError, shows empty_pose blackout [failed_read], s')
    /\ (Release ∉ shows empty_pose blackout [failed_read])
    /\ (DestroyAllWindows ∉ shows empty_pose blackout [failed_read]).
Proof.
  apply (main_uncaught blackout (fun _ => inr empty_pose) empty_pose
           [failed_read] [q_read] quiet_read small_frame IndexError []
           eq_refl).
  - constructor; [apply goes_on_failed_read|constructor].
  - reflexivity.
  - apply (rendered_short empty_pose blackout small_frame _ [] [] eq_refl).
    cbn [length]. lia.
Defined.

Lemma main_keeps_running_witness :
  exists s' : heap,
    main blackout upright_model true [failed_read; quiet_read; quiet_read] []
    = (Running, shows one_pose blackout [failed_read; quiet_read; quiet_read],
       s')
    /\ length (shows one_pose blackout [failed_read; quiet_read; quiet_read])
       = length (filter (fun t => is_Some (cam t))
                   [failed_read; quiet_read; quiet_read])
    /\ [] `prefix_of` s'.
Proof.
  apply (main_keeps_running blackout upright_model one_pose
           [failed_read; quiet_read; quiet_read] [] eq_refl).
  constructor; [apply goes_on_failed_read|].
  constructor; [apply goes_on_quiet_read|].
  constructor; [apply goes_on_quiet_read|constructor].
Defined.

